(** * Prompt optimisation service: model and properties

    A shallow embedding of the four Python services of the repository
    ([api/optimize.py], [optimization-backend/app.py],
    [optimization-backend/simple_app.py], [start-fastapi.py]) together with
    the properties stated about them.

    Conventions of the model.
    - A Python [str] is a list of characters.  Characters are the code
      points below 256, for which [str.isspace] and [str.lower] are written
      out below.
    - A Python [int] is a [Z]; a Python [float] is read as the exact
      rational its decimal literal denotes ([Q]), so [0.85] is [85/100], and
      float arithmetic as exact arithmetic: rounding is not modelled.  The
      comparisons of the source are between such numbers.
    - A raised exception is the [Raise] branch of [res]; what the libraries
      outside the repository compute (the trained predictors, the
      tokenizer, the mean and the sum of a pandas column) is a parameter of
      the functions that call them. *)

From Stdlib Require Import QArith Qminmax Lqa Lia.
From Stdlib Require Import Ascii.
From Stdlib Require String.
From stdpp Require Import base list strings gmap.

Local Open Scope Z_scope.
Local Open Scope list_scope.

(** ** Python values and built-ins *)

Module Py.

Abbreviation str := (list ascii).

(** String literals of the source. *)
Definition lit (s : string) : str := String.list_ascii_of_string s.

Inductive exn :=
  | ZeroDivisionError
  | KeyError (key : str)
  | LibraryError (detail : str).

Inductive res (A : Type) :=
  | Ok (a : A)
  | Raise (e : exn).
Arguments Ok {A} a.
Arguments Raise {A} e.

(** [res] is a monad in stdpp's sense: [x ← m; k] runs [k] on the value of
    [m] and propagates an exception of [m]. *)
#[global] Instance res_ret : MRet res := fun A a => Ok a.
#[global] Instance res_bind : MBind res := fun A B f m =>
  match m with
  | Ok a => f a
  | Raise e => Raise e
  end.

(** [a / b] on two ints: true division, raising on a zero divisor. *)
Definition truediv (a b : Z) : res Q :=
  if b =? 0 then Raise ZeroDivisionError
  else Ok (inject_Z a / inject_Z b)%Q.

(** [c.isspace()] for a code point below 256. *)
Definition isspace (c : ascii) : bool :=
  let n := N_of_ascii c in
  ((9 <=? n) && (n <=? 13) || (28 <=? n) && (n <=? 32)
   || (n =? 133) || (n =? 160))%N.

(** [c.lower()] for a code point below 256: the ASCII capitals and the
    Latin-1 capitals (all of 192..222 but the multiplication sign 215). *)
Definition lower_char (c : ascii) : ascii :=
  let n := N_of_ascii c in
  if ((65 <=? n) && (n <=? 90)
      || (192 <=? n) && (n <=? 222) && negb (n =? 215))%N
  then ascii_of_N (n + 32) else c.

Definition lower (s : str) : str := map lower_char s.

Definition starts_word (s : str) : bool :=
  match s with
  | d :: _ => negb (isspace d)
  | [] => false
  end.

(** [s.split()]: the maximal runs of non-space characters, in order. *)
Fixpoint split (s : str) : list str :=
  match s with
  | [] => []
  | c :: s' =>
      if isspace c then split s'
      else if starts_word s' then
        match split s' with
        | w :: ws => (c :: w) :: ws
        | [] => [[c]]
        end
      else [c] :: split s'
  end.

(** [sep.join(ws)]. *)
Fixpoint join (sep : str) (ws : list str) : str :=
  match ws with
  | [] => []
  | [w] => w
  | w :: ws' => w ++ sep ++ join sep ws'
  end.

Fixpoint lstrip (s : str) : str :=
  match s with
  | c :: s' => if isspace c then lstrip s' else s
  | [] => []
  end.

Definition rstrip (s : str) : str := rev (lstrip (rev s)).

(** [s.strip()]. *)
Definition strip (s : str) : str := rstrip (lstrip s).

(** [s.startswith(p)]. *)
Fixpoint startswith (p s : str) : bool :=
  match p, s with
  | [], _ => true
  | a :: p', b :: s' => if ascii_dec a b then startswith p' s' else false
  | _ :: _, [] => false
  end.

(** [p in s] for strings: [p] occurs as a substring of [s]. *)
Fixpoint contains (p s : str) : bool :=
  startswith p s ||
  match s with
  | [] => false
  | _ :: s' => contains p s'
  end.

(** [s.replace(old, new)] for a non-empty [old]: the occurrences of [old]
    are found left to right without overlap; [skip] counts the characters
    of a matched occurrence still to be passed over. *)
Fixpoint replace_from (skip : nat) (old new s : str) : str :=
  match s with
  | [] => []
  | c :: s' =>
      match skip with
      | S k => replace_from k old new s'
      | O =>
          if startswith old s
          then new ++ replace_from (length old - 1) old new s'
          else c :: replace_from 0 old new s'
      end
  end.

(** With an empty [old], Python puts [new] before every character and at
    the end. *)
Definition replace (old new s : str) : str :=
  match old with
  | [] => new ++ concat (map (fun c => c :: new) s)
  | _ :: _ => replace_from 0 old new s
  end.

(** A chain of replacements applied in table order, as the loops over a
    [dict] or the sequences of [replace] statements do. *)
Definition replace_all (table : list (str * str)) (s : str) : str :=
  fold_left (fun acc p => replace (fst p) (snd p) acc) table s.

(** [w in l] for a list or set of strings. *)
Definition mem (w : str) (l : list str) : bool :=
  bool_decide (w ∈ l).

End Py.

Import Py.

(** The response of an endpoint: the body, or the [HTTPException] raised by
    the handler's [except Exception] clause. *)
Inductive http (A : Type) :=
  | Http200 (body : A)
  | HTTPException (status_code : Z) (detail : exn).
Arguments Http200 {A} body.
Arguments HTTPException {A} status_code detail.

(** The request model shared by the four services. *)
Record OptimizationRequest := {
  prompt : str;
  context : str;
  budget : Q;
  quality_threshold : Q;
  optimization_strategy : str
}.

(** ** [api/optimize.py] *)

Module Api.

Record token_analysis := {
  original_tokens : Z;
  optimized_tokens : Z;
  reduction_percentage : Q
}.

Record ml_insights := {
  complexity_score : Q;
  optimization_potential : Q;
  confidence : Q;
  strategy_effectiveness : Q
}.

Record result := {
  original_prompt : str;
  optimized_prompt : str;
  cost_reduction : Q;
  quality_score : Q;
  tokens : token_analysis;
  insights : ml_insights;
  optimization_strategies : list str
}.

Definition filler_words : list str :=
  map lit
    ["the"; "a"; "an"; "and"; "or"; "but"; "in"; "on"; "at"; "to"; "for";
     "of"; "with"; "by"; "please"; "kindly"; "would"; "could"; "should";
     "might"; "may"; "can"; "will"; "shall"].

Definition verbose_replacements : list (str * str) :=
  map (fun p => (lit (fst p), lit (snd p)))
    [("in order to", "to");
     ("due to the fact that", "because");
     ("at this point in time", "now");
     ("i would like to", "need");
     ("can you help me", "help");
     ("if it is possible", "if possible");
     ("as soon as possible", "ASAP");
     ("with regard to", "regarding");
     ("in the event that", "if");
     ("prior to", "before");
     ("subsequent to", "after");
     ("in the near future", "soon");
     ("in the meantime", "meanwhile");
     ("for the purpose of", "to");
     ("in the case of", "if");
     ("with reference to", "re:");
     ("in accordance with", "per");
     ("in the absence of", "without");
     ("in the presence of", "with");
     ("in the context of", "in");
     ("with respect to", "re:");
     ("in terms of", "for");
     ("from the perspective of", "from");
     ("in the form of", "as");
     ("in the process of", "while");
     ("in the course of", "during");
     ("in the midst of", "amid");
     ("in the wake of", "after");
     ("in the face of", "despite");
     ("in the light of", "given")].

(** The test of the filter loop:
    [word.lower() not in filler_words or len(word) > 3]. *)
Definition keep_word (word : str) : bool :=
  negb (mem (lower word) filler_words) || (3 <? length word)%nat.

(** "Remove filler words": split, filter, join. *)
Definition remove_fillers (optimized : str) : str :=
  join (lit " ") (List.filter keep_word (split optimized)).

Definition punctuation_replacements : list (str * str) :=
  map (fun p => (lit (fst p), lit (snd p)))
    [("  ", " "); (" ,", ","); (" .", "."); (" ?", "?"); (" !", "!")].

(** "Strategy 3": clean up spaces, then fix the spacing of punctuation. *)
Definition normalize_punctuation (optimized : str) : str :=
  replace_all punctuation_replacements (join (lit " ") (split optimized)).

Definition pattern_replacements : list (str * str) :=
  map (fun p => (lit (fst p), lit (snd p)))
    [("create a", "create"); ("build a", "build"); ("make a", "make");
     ("generate a", "generate"); ("implement a", "implement");
     ("develop a", "develop")].

(** The text transformation of [optimize_prompt], up to "Final cleanup". *)
Definition optimize_text (prompt : str) : str :=
  let optimized := prompt in
  let optimized := replace_all verbose_replacements optimized in
  let optimized := remove_fillers optimized in
  let optimized := normalize_punctuation optimized in
  let optimized := replace_all pattern_replacements optimized in
  strip optimized.

Definition strategy_names : list str :=
  map lit
    ["filler_removal"; "verbose_phrase_replacement";
     "punctuation_optimization"; "pattern_optimization"].

Definition optimize_prompt (prompt : str) : res result :=
  let original_tokens := Z.of_nat (length (split prompt)) in
  let optimized := optimize_text prompt in
  let optimized_tokens := Z.of_nat (length (split optimized)) in
  let token_reduction := Z.max 0 (original_tokens - optimized_tokens) in
  let cost_reduction := (inject_Z token_reduction * 0.002)%Q in
  ratio ← truediv token_reduction (Z.max original_tokens 1);
  let quality_score := Qmin 0.95 (0.85 + ratio * 0.3) in
  let complexity_score := Qmin 1.0 (inject_Z original_tokens / 50.0) in
  let optimization_potential := Qmin 1.0 (inject_Z token_reduction / 10.0) in
  percentage ←
    (if 0 <? original_tokens
     then q ← truediv token_reduction original_tokens; mret (q * 100)%Q
     else mret 0%Q);
  mret {|
    original_prompt := prompt;
    optimized_prompt := optimized;
    cost_reduction := cost_reduction;
    quality_score := quality_score;
    tokens := {|
      original_tokens := original_tokens;
      optimized_tokens := optimized_tokens;
      reduction_percentage := percentage
    |};
    insights := {|
      complexity_score := complexity_score;
      optimization_potential := optimization_potential;
      confidence := quality_score;
      strategy_effectiveness := Qmin 1.0 (inject_Z token_reduction / 5.0)
    |};
    optimization_strategies := strategy_names
  |}.

(** The [/optimize] endpoint: only the prompt of the request is used. *)
Definition optimize (request : OptimizationRequest) : http result :=
  match optimize_prompt (prompt request) with
  | Ok result => Http200 result
  | Raise e => HTTPException 500 e
  end.

(** *** The subscriber list and [broadcast_message]

    A connection is an opaque handle; [fails c] tells whether
    [c.send_text] raises.  The model returns the new [active_connections]
    and the messages delivered, in the order of the sends. *)
Section Broadcast.
Context {handle message : Type} `{EqDecision handle}.
Variable fails : handle -> bool.

(** [l.remove(c)] for a [c] that is in [l]: the first occurrence goes. *)
Fixpoint remove_first (c : handle) (l : list handle) : list handle :=
  match l with
  | [] => []
  | x :: l' => if decide (x = c) then l' else x :: remove_first c l'
  end.

(** The first loop: send to every connection, collect the failures. *)
Fixpoint send_loop (message_str : message) (connections : list handle)
    (sent : list (handle * message)) (disconnected : list handle)
    : list (handle * message) * list handle :=
  match connections with
  | [] => (sent, disconnected)
  | connection :: rest =>
      if fails connection
      then send_loop message_str rest sent (disconnected ++ [connection])
      else send_loop message_str rest
             (sent ++ [(connection, message_str)]) disconnected
  end.

(** The second loop: remove the collected connections. *)
Fixpoint remove_loop (disconnected active_connections : list handle)
    : list handle :=
  match disconnected with
  | [] => active_connections
  | connection :: rest =>
      if bool_decide (connection ∈ active_connections)
      then remove_loop rest (remove_first connection active_connections)
      else remove_loop rest active_connections
  end.

Definition broadcast_message (message_str : message)
    (active_connections : list handle)
    : list handle * list (handle * message) :=
  match active_connections with
  | [] => (active_connections, [])
  | _ :: _ =>
      let '(sent, disconnected) :=
        send_loop message_str active_connections [] [] in
      (remove_loop disconnected active_connections, sent)
  end.
End Broadcast.

End Api.

(** ** [optimization-backend/simple_app.py] *)

Module SimpleApp.

Record token_analysis := {
  original_tokens : Z;
  optimized_tokens : Z;
  reduction_percentage : Q
}.

Record ml_insights := {
  complexity_score : Q;
  optimization_potential : Q;
  confidence : Q
}.

Record result := {
  original_prompt : str;
  optimized_prompt : str;
  cost_reduction : Q;
  quality_score : Q;
  tokens : token_analysis;
  insights : ml_insights;
  optimization_strategies : list str
}.

Definition filler_words : list str :=
  map lit
    ["the"; "a"; "an"; "and"; "or"; "but"; "in"; "on"; "at"; "to"; "for";
     "of"; "with"; "by"].

Definition redundant_phrases : list str :=
  map lit
    ["please"; "kindly"; "if possible"; "if you can"; "would you mind";
     "i would like to"; "i want to"; "i need to"; "can you help me"].

(** "Strategy 2": every phrase is replaced by the empty string, and the
    text is stripped after each replacement. *)
Definition remove_redundant (optimized_text : str) : str :=
  fold_left (fun text phrase => strip (replace phrase [] text))
    redundant_phrases optimized_text.

Definition simplifications : list (str * str) :=
  map (fun p => (lit (fst p), lit (snd p)))
    [("in order to", "to"); ("due to the fact that", "because");
     ("at this point in time", "now")].

(** The text transformation of [simple_optimize_prompt].  The list
    [filtered_words] of "Strategy 1" is computed by the source and never
    used; it has no part in the result. *)
Definition optimize_text (prompt : str) : str :=
  let optimized_text := remove_redundant prompt in
  let optimized_text := replace_all simplifications optimized_text in
  join (lit " ") (split optimized_text).

Definition strategy_names : list str :=
  map lit ["filler_removal"; "redundancy_reduction"; "sentence_simplification"].

Definition simple_optimize_prompt (prompt : str) : res result :=
  let original_tokens := Z.of_nat (length (split prompt)) in
  let optimized_text := optimize_text prompt in
  let optimized_tokens := Z.of_nat (length (split optimized_text)) in
  let token_reduction := Z.max 0 (original_tokens - optimized_tokens) in
  let cost_reduction := (inject_Z token_reduction * 0.002)%Q in
  ratio ← truediv token_reduction original_tokens;
  let quality_score := Qmin 0.95 (0.8 + ratio * 0.3) in
  percentage ←
    (if 0 <? original_tokens
     then q ← truediv token_reduction original_tokens; mret (q * 100)%Q
     else mret 0%Q);
  mret {|
    original_prompt := prompt;
    optimized_prompt := optimized_text;
    cost_reduction := cost_reduction;
    quality_score := quality_score;
    tokens := {|
      original_tokens := original_tokens;
      optimized_tokens := optimized_tokens;
      reduction_percentage := percentage
    |};
    insights := {|
      complexity_score := Qmin 1.0 (inject_Z original_tokens / 50.0);
      optimization_potential := Qmin 1.0 (inject_Z token_reduction / 10.0);
      confidence := quality_score
    |};
    optimization_strategies := strategy_names
  |}.

(** The [/optimize] endpoint. *)
Definition optimize_prompt (request : OptimizationRequest) : http result :=
  match simple_optimize_prompt (prompt request) with
  | Ok result => Http200 result
  | Raise e => HTTPException 500 e
  end.

End SimpleApp.

(** ** [start-fastapi.py] *)

Module StartFastapi.

Definition filler_words : list str :=
  map lit
    ["the"; "a"; "an"; "and"; "or"; "but"; "in"; "on"; "at"; "to"; "for";
     "of"; "with"; "by"; "please"; "kindly"].

(** The test of the list comprehension:
    [word.lower() not in filler_words]. *)
Definition keep_word (word : str) : bool :=
  negb (mem (lower word) filler_words).

(** "Remove common filler words". *)
Definition remove_fillers (optimized : str) : str :=
  join (lit " ") (List.filter keep_word (split optimized)).

Definition redundant_replacements : list (str * str) :=
  map (fun p => (lit (fst p), lit (snd p)))
    [("in order to", "to"); ("due to the fact that", "because");
     ("at this point in time", "now"); ("i would like to", "need");
     ("can you help me", "help")].

Definition optimize_text (prompt : str) : str :=
  let optimized := remove_fillers prompt in
  let optimized := replace_all redundant_replacements optimized in
  join (lit " ") (split optimized).

Record token_analysis := {
  original_tokens : Z;
  optimized_tokens : Z;
  reduction_percentage : Q
}.

Record ml_insights := {
  complexity_score : Q;
  optimization_potential : Q;
  confidence : Q
}.

Record result := {
  original_prompt : str;
  optimized_prompt : str;
  cost_reduction : Q;
  quality_score : Q;
  tokens : token_analysis;
  insights : ml_insights;
  optimization_strategies : list str
}.

Definition strategy_names : list str :=
  map lit ["filler_removal"; "redundancy_reduction"; "sentence_simplification"].

(** [optimize_prompt]: the quality score and the confidence are the
    constant 0.92. *)
Definition optimize_prompt (prompt : str) : res result :=
  let original_tokens := Z.of_nat (length (split prompt)) in
  let optimized := optimize_text prompt in
  let optimized_tokens := Z.of_nat (length (split optimized)) in
  let token_reduction := Z.max 0 (original_tokens - optimized_tokens) in
  let cost_reduction := (inject_Z token_reduction * 0.002)%Q in
  percentage ←
    (if 0 <? original_tokens
     then q ← truediv token_reduction original_tokens; mret (q * 100)%Q
     else mret 0%Q);
  mret {|
    original_prompt := prompt;
    optimized_prompt := optimized;
    cost_reduction := cost_reduction;
    quality_score := 0.92;
    tokens := {|
      original_tokens := original_tokens;
      optimized_tokens := optimized_tokens;
      reduction_percentage := percentage
    |};
    insights := {|
      complexity_score := Qmin 1.0 (inject_Z original_tokens / 50.0);
      optimization_potential := Qmin 1.0 (inject_Z token_reduction / 10.0);
      confidence := 0.92
    |};
    optimization_strategies := strategy_names
  |}.

(** The [/optimize] endpoint. *)
Definition optimize (request : OptimizationRequest) : http result :=
  match optimize_prompt (prompt request) with
  | Ok result => Http200 result
  | Raise e => HTTPException 500 e
  end.

End StartFastapi.

(** ** [optimization-backend/app.py] *)

Module App.

(** *** [MLOptimizationEngine._calculate_complexity] *)

Definition complexity_indicators : list str :=
  map lit
    ["machine learning"; "neural network"; "deep learning"; "algorithm";
     "optimization"; "performance"; "scalability"; "microservices";
     "real-time"; "asynchronous"; "concurrent"; "distributed"].

(** [sum(1 for indicator in complexity_indicators
          if indicator in prompt_lower)] *)
Definition indicator_count (prompt_lower : str) : Z :=
  Z.of_nat
    (length
       (List.filter (fun indicator => contains indicator prompt_lower)
          complexity_indicators)).

Definition _calculate_complexity (prompt : str) : Q :=
  let prompt_lower := lower prompt in
  let complexity_score := indicator_count prompt_lower in
  Qmin 1.0 (inject_Z complexity_score / 5.0).

(** The dictionary returned by [predict_optimization]. *)
Record ml_insights := {
  predicted_cost_reduction : Q;
  predicted_quality : Q;
  confidence : Q;
  complexity_score : Q
}.

(** *** [AdvancedOptimizationStrategies] *)

(** The loop building [word_freq]. *)
Definition count_words (words : list str) : gmap str Z :=
  fold_left
    (fun word_freq word => <[word := default 0 (word_freq !! word) + 1]> word_freq)
    words ∅.

(** [d[k]], raising [KeyError] on a missing key. *)
Definition getitem (d : gmap str Z) (k : str) : res Z :=
  match d !! k with
  | Some v => Ok v
  | None => Raise (KeyError k)
  end.

(** [a > b] on floats. *)
Definition Qgtb (a b : Q) : bool := negb (Qle_bool a b).

(** The second loop of [_entropy_optimization], over the words left.  The
    frequency is a ratio of two counts; it exceeds one tenth as a rational
    exactly when the rounded quotient exceeds the float [0.1], for every
    prompt of fewer than 10^16 words. *)
Fixpoint entropy_loop (word_freq : gmap str Z) (total_words : Z)
    (words optimized_words : list str) : res (list str) :=
  match words with
  | [] => mret optimized_words
  | word :: rest =>
      count ← getitem word_freq word;
      frequency ← truediv count total_words;
      if Qgtb frequency 0.1
      then entropy_loop word_freq total_words rest (optimized_words ++ [word])
      else if (6 <? length word)%nat
      then entropy_loop word_freq total_words rest (optimized_words ++ [word])
      else entropy_loop word_freq total_words rest optimized_words
  end.

Definition _entropy_optimization (prompt : str) : res str :=
  let words := split prompt in
  let word_freq := count_words words in
  let total_words := Z.of_nat (length words) in
  optimized_words ← entropy_loop word_freq total_words words [];
  mret (join (lit " ") optimized_words).

Definition semantic_replacements : list (str * str) :=
  map (fun p => (lit (fst p), lit (snd p)))
    [("create a", "build"); ("implement a", "code"); ("develop a", "make");
     ("construct a", "build"); ("generate a", "create");
     ("produce a", "make"); ("design a", "build");
     ("establish a", "create")].

Definition _semantic_compression (prompt : str) : str :=
  replace_all semantic_replacements (lower prompt).

Definition redundant_phrases : list str :=
  map lit
    ["please"; "kindly"; "i would like to"; "i need to"; "could you";
     "would you"; "i want to"].

(** The loop of [_context_aware_trimming]: every phrase is replaced by the
    empty string. *)
Definition strip_phrases (phrases : list str) (optimized : str) : str :=
  fold_left (fun text phrase => replace phrase [] text) phrases optimized.

Definition _context_aware_trimming (prompt : str) : str :=
  join (lit " ") (split (strip_phrases redundant_phrases prompt)).

(** [ml_insights.get('complexity_score', 0.5)]: the key is always present
    in what [predict_optimization] returns. *)
Definition _ml_guided_optimization (prompt : str) (insights : ml_insights)
    : res str :=
  let complexity := complexity_score insights in
  if Qgtb complexity 0.7 then _entropy_optimization prompt
  else if Qgtb complexity 0.4 then mret (_semantic_compression prompt)
  else mret (_context_aware_trimming prompt).

Definition _adaptive_compression (prompt : str) : res str :=
  let optimized := prompt in
  optimized ← _entropy_optimization optimized;
  let optimized := _semantic_compression optimized in
  let optimized := _context_aware_trimming optimized in
  mret optimized.

(** The values of the [strategies] table: four methods take the prompt,
    one takes the prompt and the insights. *)
Inductive strategy_fn :=
  | Unary (f : str -> res str)
  | WithInsights (f : str -> ml_insights -> res str).

Definition strategies : list (str * strategy_fn) :=
  [(lit "entropy_optimization", Unary _entropy_optimization);
   (lit "semantic_compression", Unary (fun p => mret (_semantic_compression p)));
   (lit "context_aware_trimming", Unary (fun p => mret (_context_aware_trimming p)));
   (lit "ml_guided_optimization", WithInsights _ml_guided_optimization);
   (lit "adaptive_compression", Unary _adaptive_compression)].

(** The strategy hints the dispatch knows: ["auto"] and the keys of the
    table. *)
Definition recognized_strategies : list str :=
  lit "auto" :: map fst strategies.

(** [self.strategies[strategy]] *)
Fixpoint strategies_getitem (table : list (str * strategy_fn))
    (strategy : str) : res strategy_fn :=
  match table with
  | [] => Raise (KeyError strategy)
  | (name, f) :: table' =>
      if decide (name = strategy) then Ok f
      else strategies_getitem table' strategy
  end.

(** "Select optimization strategy" in [optimize_prompt]. *)
Definition select_strategy (optimization_strategy : str)
    (insights : ml_insights) : str :=
  if decide (optimization_strategy = lit "auto") then
    if Qgtb (complexity_score insights) 0.7 then lit "ml_guided_optimization"
    else if Qgtb (complexity_score insights) 0.4 then lit "adaptive_compression"
    else lit "semantic_compression"
  else optimization_strategy.

(** "Apply optimization" in [optimize_prompt].  Calling a method with the
    wrong number of arguments cannot happen: only the table entry of
    [ml_guided_optimization] takes the insights, and it is the only one
    that gets them. *)
Definition apply_strategy (strategy : str) (prompt : str)
    (insights : ml_insights) : res str :=
  f ← strategies_getitem strategies strategy;
  match f with
  | Unary g => g prompt
  | WithInsights g => g prompt insights
  end.

(** *** [RealTimeAnalytics] *)

Record token_analysis := {
  original_tokens : Z;
  optimized_tokens : Z;
  token_reduction : Z;
  reduction_percentage : Q
}.

Record OptimizationResult := {
  original_prompt : str;
  optimized_prompt : str;
  cost_reduction : Q;
  quality_score : Q;
  optimization_strategies : list str;
  result_confidence : Q;
  estimated_savings : Q;
  tokens : token_analysis;
  insights : ml_insights
}.

(** An entry of [metrics_history]: the result with its time stamp. *)
Record metrics_entry := {
  timestamp : Z;
  entry_result : OptimizationResult
}.

(** [l[-n:]] for a positive [n]. *)
Definition last_n {A} (n : nat) (l : list A) : list A :=
  drop (length l - n) l.

Definition update_metrics (now : Z) (optimization_result : OptimizationResult)
    (metrics_history : list metrics_entry) : list metrics_entry :=
  let metrics_history :=
    metrics_history ++
      [{| timestamp := now; entry_result := optimization_result |}] in
  if (1000 <? length metrics_history)%nat
  then last_n 1000 metrics_history
  else metrics_history.

(** The aggregates of a pandas column that the snapshot calls.  They are
    computed in floating point, in an order of summation that is the
    library's, so the model leaves them open: [Series_mean values] and
    [Series_sum values] stand for [Series.mean()] and [Series.sum()] of a
    non-empty column holding [values].  Nothing is assumed about them. *)
Class Pandas := {
  Series_mean : list Q -> Q;
  Series_sum : list Q -> Q
}.

(** The numeric fields of the dictionary returned by
    [get_real_time_analytics]; [recent_trend] is absent from the dictionary
    of an empty history.  The [top_strategies] table (a pandas
    [value_counts]) is left out of the model. *)
Record analytics := {
  total_optimizations : Z;
  average_savings : Q;
  total_savings : Q;
  success_rate : Q;
  recent_trend : option Q
}.

(** [df['cost_reduction'].tail(10)] holds the last ten values of the
    column; the boolean column [df['quality_score'] > 0.9] is averaged as
    ones and zeros. *)
Definition get_real_time_analytics `{pandas : Pandas}
    (metrics_history : list metrics_entry) : analytics :=
  match metrics_history with
  | [] =>
      {| total_optimizations := 0; average_savings := 0; total_savings := 0;
         success_rate := 0; recent_trend := None |}
  | _ :: _ =>
      let costs := map (fun e => cost_reduction (entry_result e)) metrics_history in
      let above :=
        map (fun e => if Qgtb (quality_score (entry_result e)) 0.9
                      then 1%Q else 0%Q) metrics_history in
      {| total_optimizations := Z.of_nat (length metrics_history);
         average_savings := Series_mean costs;
         total_savings := Series_sum costs;
         success_rate := Series_mean above;
         recent_trend := Some (Series_mean (last_n 10 costs)) |}
  end.

(** *** [ConnectionManager] and the [/optimize] endpoint

    The trained predictors and the tokenizer are outside the repository:
    [predict] stands for the three numbers the scikit-learn models give
    (predicted cost reduction, predicted quality, confidence) and [encode]
    for the [cl100k_base] encoding; either may raise.  [fails c] tells
    whether [c.send_text] raises. *)
Section Engine.
Context {handle : Type} `{EqDecision handle}.
Variable fails : handle -> bool.
Variable predict : str -> str -> Q -> Q -> res (Q * Q * Q).
Variable encode : str -> res (list Z).

Inductive message :=
  | OptimizationCompleted (data : OptimizationResult).

(** [ConnectionManager.broadcast]: a [for] loop over the list that the
    handler of a failed send mutates.  The list iterator holds an index
    [i]; it reads [active_connections[i]], advances, and stops when the
    index is past the end of the list as it is then.  [None] stands for a
    loop that has not finished when the fuel is used up. *)
Fixpoint broadcast_loop (fuel : nat) (msg : message) (i : nat)
    (active_connections : list handle) (sent : list (handle * message))
    : option (list handle * list (handle * message)) :=
  match fuel with
  | O => None
  | S fuel' =>
      match active_connections !! i with
      | None => Some (active_connections, sent)
      | Some connection =>
          if fails connection
          then broadcast_loop fuel' msg (S i)
                 (Api.remove_first connection active_connections) sent
          else broadcast_loop fuel' msg (S i) active_connections
                 (sent ++ [(connection, msg)])
      end
  end.

Definition broadcast (msg : message) (active_connections : list handle)
    : option (list handle * list (handle * message)) :=
  broadcast_loop (S (length active_connections)) msg 0 active_connections [].

Definition predict_optimization (prompt context : str)
    (budget quality_threshold : Q) : res ml_insights :=
  prediction ← predict prompt context budget quality_threshold;
  let '(cost, quality, conf) := prediction in
  mret {| predicted_cost_reduction := cost;
          predicted_quality := quality;
          confidence := conf;
          complexity_score := _calculate_complexity prompt |}.

(** The body of the [try] block up to the construction of [result]. *)
Definition build_result (request : OptimizationRequest)
    : res OptimizationResult :=
  ml_insights ←
    predict_optimization (prompt request) (context request)
      (budget request) (quality_threshold request);
  let strategy := select_strategy (optimization_strategy request) ml_insights in
  optimized_prompt ← apply_strategy strategy (prompt request) ml_insights;
  original ← encode (prompt request);
  optimized ← encode optimized_prompt;
  let original_tokens := Z.of_nat (length original) in
  let optimized_tokens := Z.of_nat (length optimized) in
  let cost_reduction := predicted_cost_reduction ml_insights in
  let estimated_savings := (cost_reduction * 0.05)%Q in
  ratio ← truediv (original_tokens - optimized_tokens) original_tokens;
  mret {|
    original_prompt := prompt request;
    optimized_prompt := optimized_prompt;
    cost_reduction := cost_reduction;
    quality_score := predicted_quality ml_insights;
    optimization_strategies := [strategy];
    result_confidence := confidence ml_insights;
    estimated_savings := estimated_savings;
    tokens := {|
      original_tokens := original_tokens;
      optimized_tokens := optimized_tokens;
      token_reduction := original_tokens - optimized_tokens;
      reduction_percentage := (ratio * 100)%Q
    |};
    insights := ml_insights
  |}.

(** The state the endpoint works on: the history of [analytics_engine],
    the connections of [manager], and the messages delivered so far. *)
Record state := {
  metrics_history : list metrics_entry;
  active_connections : list handle;
  delivered : list (handle * message)
}.

(** The [/optimize] endpoint at time [now].  [None] only if the
    broadcast loop runs out of fuel. *)
Definition optimize_prompt (now : Z) (request : OptimizationRequest)
    (st : state) : option (http OptimizationResult * state) :=
  match build_result request with
  | Raise e => Some (HTTPException 500 e, st)
  | Ok result =>
      let history := update_metrics now result (metrics_history st) in
      '(connections, sent) ←
        broadcast (OptimizationCompleted result) (active_connections st);
      Some (Http200 result,
            {| metrics_history := history;
               active_connections := connections;
               delivered := delivered st ++ sent |})
  end.
End Engine.

(** *** [ConnectionManager.connect] and [ConnectionManager.disconnect] *)
Section Connections.
Context {handle : Type} `{EqDecision handle}.

(** [connect], once the socket is accepted. *)
Definition connect (websocket : handle) (active_connections : list handle)
    : list handle :=
  active_connections ++ [websocket].

(** [disconnect]: [list.remove], which raises [ValueError] when the
    connection is not in the list; [None] stands for that exception. *)
Definition disconnect (websocket : handle) (active_connections : list handle)
    : option (list handle) :=
  if bool_decide (websocket ∈ active_connections)
  then Some (Api.remove_first websocket active_connections)
  else None.
End Connections.

End App.

(** ** The metrics as the specification words them

    Token reduction [max(0, original - optimized)], its ratio to
    [max(original, 1)], and the capped quality score over a base value. *)

Module Metrics.

Definition reduction (original optimized : Z) : Z :=
  Z.max 0 (original - optimized).

Definition reduction_ratio (original optimized : Z) : Q :=
  (inject_Z (reduction original optimized) / inject_Z (Z.max original 1))%Q.

Definition quality_formula (base ratio : Q) : Q :=
  Qmin 0.95 (base + ratio * 0.3).

End Metrics.

(** ** Counting tokens

    The number of tokens of a text, [length (split s)], is also what a
    two-state scanner counts: [cnt inside s] is the number of words that
    begin in [s] when the character before [s] was ([inside = true]) or was
    not part of a word. *)

Module Tokens.

Fixpoint cnt (inside : bool) (s : str) : nat :=
  match s with
  | [] => 0
  | c :: s' =>
      if isspace c then cnt false s'
      else (if inside then 0 else 1) + cnt true s'
  end%nat.

(** The state of the scanner after [s]. *)
Fixpoint after (inside : bool) (s : str) : bool :=
  match s with
  | [] => inside
  | c :: s' => after (negb (isspace c)) s'
  end.

(** A word: non-empty and without space. *)
Definition is_word (w : str) : bool :=
  match w with
  | [] => false
  | _ :: _ => forallb (fun c => negb (isspace c)) w
  end.

(** A sufficient test for "replacing [old] by [new] anywhere never adds a
    token": from either state the scanner counts no more words in [new]
    than in [old], with one word to spare when [new] ends outside a word
    and [old] inside one. *)
Definition shrinks_at (inside : bool) (old new : str) : bool :=
  match after inside new, after inside old with
  | false, true => (S (cnt inside new) <=? cnt inside old)%nat
  | _, _ => (cnt inside new <=? cnt inside old)%nat
  end.

Definition shrinks (p : str * str) : bool :=
  match fst p with
  | [] => false
  | _ :: _ => shrinks_at false (fst p) (snd p) && shrinks_at true (fst p) (snd p)
  end.

(** How often [w] is among [words]. *)
Definition occurrences (w : str) (words : list str) : Z :=
  Z.of_nat (length (List.filter (fun x => bool_decide (x = w)) words)).

(** The test of the second loop of [_entropy_optimization], stated on
    the number of occurrences: relative frequency above 0.1, or more than
    six characters. *)
Definition entropy_keep (words : list str) (word : str) : bool :=
  App.Qgtb (inject_Z (occurrences word words)
            / inject_Z (Z.of_nat (length words))) 0.1
  || (6 <? length word)%nat.

(** Entropy-based pruning as a filter of the words of the prompt. *)
Definition entropy_pruned (prompt : str) : str :=
  join (lit " ") (List.filter (entropy_keep (split prompt)) (split prompt)).

End Tokens.

(** ** Sequences of record calls *)

Module Runs.

(** The entry a call of [update_metrics] at time [fst call] with the result
    [snd call] appends. *)
Definition entry_of (call : Z * App.OptimizationResult) : App.metrics_entry :=
  {| App.timestamp := fst call; App.entry_result := snd call |}.

(** The history after the calls, oldest first, from the history [h]. *)
Definition record_all (calls : list (Z * App.OptimizationResult))
    (h : list App.metrics_entry) : list App.metrics_entry :=
  fold_left (fun h call => App.update_metrics (fst call) (snd call) h) calls h.

(** A result to fill histories with. *)
Definition sample_result : App.OptimizationResult :=
  {| App.original_prompt := lit "create a chatbot";
     App.optimized_prompt := lit "build chatbot";
     App.cost_reduction := 0.2;
     App.quality_score := 0.92;
     App.optimization_strategies := [lit "semantic_compression"];
     App.result_confidence := 0.5;
     App.estimated_savings := 0.01;
     App.tokens :=
       {| App.original_tokens := 3; App.optimized_tokens := 2;
          App.token_reduction := 1; App.reduction_percentage := 100 # 3 |};
     App.insights :=
       {| App.predicted_cost_reduction := 0.2; App.predicted_quality := 0.92;
          App.confidence := 0.5; App.complexity_score := 0 |} |}.

(** Aggregates to run the snapshot with on sample histories: the sum and
    the mean without rounding.  No statement is about them. *)
Definition unrounded : App.Pandas :=
  {| App.Series_sum := fold_right Qplus 0%Q;
     App.Series_mean := fun values =>
       (fold_right Qplus 0 values / inject_Z (Z.of_nat (length values)))%Q |}.

End Runs.

(** ** The [/ws] endpoint of [api/optimize.py] and [start-fastapi.py]

    The two files have the same handler.  It is run here against a script
    of what the socket does: the outcomes of the successive
    [receive_text] calls, and the outcome of the [k]-th [send_text].  The
    clock gives the time stamp of the [k]-th message built.  [json.loads]
    is a parameter; [None] stands for its [JSONDecodeError].  No other
    task touches the connection list while the handler runs. *)

Module Ws.

(** What [json.loads] returns.  The fields of an object are in document
    order; on a repeated key the last field counts, as in the [dict] that
    [json.loads] builds. *)
#[local] Unset Elimination Schemes.
Inductive json :=
  | JNull
  | JBool (b : bool)
  | JNum (n : Q)
  | JStr (s : str)
  | JArr (items : list json)
  | JObj (fields : list (str * json)).
#[local] Set Elimination Schemes.

Inductive handler_exn :=
  | JSONDecodeError
  | AttributeError
  | SendError.

(** [d.get(key)] on the fields of an object. *)
Fixpoint dict_get (key : str) (fields : list (str * json)) : option json :=
  match fields with
  | [] => None
  | (k, v) :: rest =>
      match dict_get key rest with
      | Some later => Some later
      | None => if decide (k = key) then Some v else None
      end
  end.

(** [message.get("type")]: only an object has the method. *)
Definition get_type (message : json) : handler_exn + option json :=
  match message with
  | JObj fields => inr (dict_get (lit "type") fields)
  | _ => inl AttributeError
  end.

(** The payloads passed to [json.dumps]; the data of an analytics update
    are constants of the source. *)
Inductive reply :=
  | ConnectionEstablished (timestamp : Z) (active_connections : nat)
  | Pong (timestamp : Z)
  | AnalyticsUpdate (timestamp : Z)
  | Echo (received : json) (timestamp : Z)
  | Error (e : handler_exn) (timestamp : Z).

Inductive recv_outcome :=
  | Text (data : str)
  | RecvDisconnect.

Inductive send_outcome :=
  | Sent
  | SendDisconnect
  | SendFailure.

(** How a run stands: still waiting for a message, left through the
    [finally] clause without an exception, or left with one. *)
Inductive exit :=
  | Waiting
  | Returned
  | Raised.

Section Handler.
Context {handle : Type} `{EqDecision handle}.
Variable loads : str -> option json.
Variable clock : nat -> Z.
Variable send_result : nat -> send_outcome.

(** The body of the inner [try] up to the send: the message to send, or
    the exception raised before. *)
Definition answer (data : str) (timestamp : Z) : handler_exn + reply :=
  match loads data with
  | None => inl JSONDecodeError
  | Some message =>
      match get_type message with
      | inl e => inl e
      | inr type =>
          match type with
          | Some (JStr t) =>
              if decide (t = lit "ping") then inr (Pong timestamp)
              else if decide (t = lit "get_analytics")
              then inr (AnalyticsUpdate timestamp)
              else inr (Echo message timestamp)
          | _ => inr (Echo message timestamp)
          end
      end
  end.

(** The message a text is answered with when the sends succeed: the
    message of the inner [try], or the error message of its handler. *)
Definition reply_to (data : str) (timestamp : Z) : reply :=
  match answer data timestamp with
  | inr message => message
  | inl e => Error e timestamp
  end.

(** The handler of [except Exception as e], which sends an error message;
    [k] numbers that send. *)
Definition on_exception (e : handler_exn) (k : nat) (outbox : list reply)
    : list reply * option exit :=
  match send_result k with
  | Sent => (outbox ++ [Error e (clock k)], None)
  | SendDisconnect => (outbox, Some Returned)
  | SendFailure => (outbox, Some Raised)
  end.

(** The [while True] loop, from the [k]-th send on. *)
Fixpoint message_loop (recvs : list recv_outcome) (k : nat)
    (outbox : list reply) : list reply * exit :=
  match recvs with
  | [] => (outbox, Waiting)
  | RecvDisconnect :: _ => (outbox, Returned)
  | Text data :: rest =>
      match answer data (clock k) with
      | inr message =>
          match send_result k with
          | Sent => message_loop rest (S k) (outbox ++ [message])
          | SendDisconnect => (outbox, Returned)
          | SendFailure =>
              match on_exception SendError (S k) outbox with
              | (outbox, None) => message_loop rest (S (S k)) outbox
              | (outbox, Some status) => (outbox, status)
              end
          end
      | inl e =>
          match on_exception e k outbox with
          | (outbox, None) => message_loop rest (S k) outbox
          | (outbox, Some status) => (outbox, status)
          end
      end
  end.

(** The [finally] clause. *)
Definition cleanup (websocket : handle) (active_connections : list handle)
    : list handle :=
  if bool_decide (websocket ∈ active_connections)
  then Api.remove_first websocket active_connections
  else active_connections.

(** The endpoint: the connection list, the messages sent, and how the run
    stands when the script is used up. *)
Definition websocket_endpoint (websocket : handle)
    (active_connections : list handle) (recvs : list recv_outcome)
    : list handle * list reply * exit :=
  let active_connections := active_connections ++ [websocket] in
  let established :=
    ConnectionEstablished (clock 0) (length active_connections) in
  let '(outbox, status) :=
    match send_result 0 with
    | Sent => message_loop recvs 1 [established]
    | SendDisconnect => ([], Returned)
    | SendFailure => ([], Raised)
    end in
  match status with
  | Waiting => (active_connections, outbox, Waiting)
  | _ => (cleanup websocket active_connections, outbox, status)
  end.
End Handler.

End Ws.

Import Tokens.

(** * Properties *)

(** ** The built-ins on small inputs *)

Example split_runs :
  split (lit "  in order   to build ") = map lit ["in"; "order"; "to"; "build"].
Proof. reflexivity. Qed.

Example join_words : join (lit " ") (map lit ["a"; "b"; "c"]) = lit "a b c".
Proof. reflexivity. Qed.

Example strip_both_ends : strip (lit "  Hello  World  ") = lit "Hello  World".
Proof. reflexivity. Qed.

Example replace_leftmost_no_overlap :
  replace (lit "aa") (lit "b") (lit "aaaaa") = lit "bba".
Proof. reflexivity. Qed.

Example replace_empty_old : replace [] (lit "-") (lit "abc") = lit "-a-b-c-".
Proof. reflexivity. Qed.

Example lower_ascii : lower (lit "Machine LEARNING") = lit "machine learning".
Proof. reflexivity. Qed.

Example contains_substring :
  contains (lit "real-time") (lit "a real-time feed") = true
  /\ contains (lit "real-time") (lit "a real time feed") = false.
Proof. split; reflexivity. Qed.

Example truediv_zero : truediv 3 0 = Raise ZeroDivisionError.
Proof. reflexivity. Qed.

Example api_pipeline_run :
  Api.optimize_text
    (lit "Please, in order to build a chatbot, I would like to create a React component")
  = lit "Please, build chatbot, I would like create React component".
Proof. vm_compute. reflexivity. Qed.

Example entropy_run :
  App._entropy_optimization
    (lit "a b c d e f g h i j k l implementation a a")
  = Ok (lit "a implementation a a").
Proof. vm_compute. reflexivity. Qed.

(** ** Facts about the built-ins *)

Section SplitFacts.

Implicit Types (s w : str) (c : ascii).

Lemma split_space c s : isspace c = true -> split (c :: s) = split s.
Proof. intros Hc. simpl. now rewrite Hc. Qed.

Lemma cnt_inside s :
  (cnt false s = if starts_word s then S (cnt true s) else cnt true s)%nat.
Proof.
  destruct s as [|c s]; simpl; [reflexivity|].
  destruct (isspace c); reflexivity.
Qed.

Lemma length_split s : length (split s) = cnt false s.
Proof.
  induction s as [|c s IH]; simpl; [reflexivity|].
  destruct (isspace c); [exact IH|].
  rewrite cnt_inside in IH.
  destruct (starts_word s).
  - destruct (split s) as [|w ws]; simpl in *; [discriminate|]. lia.
  - simpl. lia.
Qed.

Lemma cnt_bounds s : (cnt true s <= cnt false s <= S (cnt true s))%nat.
Proof. rewrite cnt_inside. destruct (starts_word s); lia. Qed.

Lemma cnt_app inside s1 s2 :
  (cnt inside (s1 ++ s2) = cnt inside s1 + cnt (after inside s1) s2)%nat.
Proof.
  revert inside. induction s1 as [|c s1 IH]; intros inside; simpl;
    [reflexivity|].
  destruct (isspace c); simpl; rewrite IH; lia.
Qed.

Lemma after_app inside s1 s2 :
  after inside (s1 ++ s2) = after (after inside s1) s2.
Proof.
  revert inside. induction s1 as [|c s1 IH]; intros inside; simpl;
    [reflexivity | apply IH].
Qed.

Lemma split_is_word s : Forall (fun w => is_word w = true) (split s).
Proof.
  induction s as [|c s IH]; simpl; [constructor|].
  destruct (isspace c) eqn:Hc; [exact IH|].
  destruct (starts_word s).
  - destruct (split s) as [|w ws]; [repeat constructor; simpl; now rewrite Hc|].
    inversion IH as [|? ? Hw Hws]; subst. constructor; [|exact Hws].
    destruct w as [|d w]; [discriminate|].
    simpl in *. now rewrite Hc.
  - constructor; [simpl; now rewrite Hc | exact IH].
Qed.

Lemma split_nonspace c s :
  isspace c = false ->
  split (c :: s) =
    if starts_word s then
      match split s with
      | w :: ws => (c :: w) :: ws
      | [] => [[c]]
      end
    else [c] :: split s.
Proof. intros Hc. simpl. now rewrite Hc. Qed.

Lemma split_word_app w s :
  is_word w = true -> starts_word s = false -> split (w ++ s) = w :: split s.
Proof.
  intros Hw Hs. induction w as [|c w IH]; [discriminate|].
  simpl in Hw. apply andb_prop in Hw as [Hc Hw].
  apply negb_true_iff in Hc.
  rewrite <- app_comm_cons, (split_nonspace _ _ Hc).
  destruct w as [|d w].
  - simpl app. now rewrite Hs.
  - assert (Hd : isspace d = false).
    { simpl in Hw. apply andb_prop in Hw as [Hd _]. now apply negb_true_iff. }
    rewrite IH by exact Hw.
    simpl starts_word. now rewrite Hd.
Qed.

Lemma split_join ws :
  Forall (fun w => is_word w = true) ws -> split (join (lit " ") ws) = ws.
Proof.
  induction 1 as [|w ws Hw Hws IH]; [reflexivity|].
  destruct ws as [|w2 ws].
  - simpl. rewrite <- (app_nil_r w) at 1. now apply split_word_app.
  - change (join (lit " ") (w :: w2 :: ws))
      with (w ++ lit " " ++ join (lit " ") (w2 :: ws)).
    rewrite split_word_app; [|exact Hw|reflexivity].
    f_equal. exact IH.
Qed.

Lemma split_join_split s : split (join (lit " ") (split s)) = split s.
Proof. apply split_join, split_is_word. Qed.

End SplitFacts.

Section ReplaceFacts.

Implicit Types (s old new : str).

Lemma startswith_app old s :
  startswith old s = true -> s = old ++ drop (length old) s.
Proof.
  revert s. induction old as [|a old IH]; intros s H; [reflexivity|].
  destruct s as [|b s]; [discriminate|].
  simpl in H. destruct (ascii_dec a b) as [->|]; [|discriminate].
  simpl. f_equal. now apply IH.
Qed.

Lemma startswith_refl_app old s : startswith old (old ++ s) = true.
Proof.
  induction old as [|a old IH]; [reflexivity|].
  simpl. destruct (ascii_dec a a); [exact IH | contradiction].
Qed.

Lemma replace_from_skip old new s1 s2 :
  replace_from (length s1) old new (s1 ++ s2) = replace_from 0 old new s2.
Proof. induction s1 as [|c s1 IH]; [reflexivity | exact IH]. Qed.

(** The two equations of [replace] on a non-empty text. *)
Lemma replace_from_match a old new s :
  replace_from 0 (a :: old) new ((a :: old) ++ s) =
    new ++ replace_from 0 (a :: old) new s.
Proof.
  change (replace_from 0 (a :: old) new ((a :: old) ++ s)) with
    (if startswith (a :: old) ((a :: old) ++ s)
     then new ++ replace_from (length (a :: old) - 1) (a :: old) new (old ++ s)
     else a :: replace_from 0 (a :: old) new (old ++ s)).
  rewrite startswith_refl_app.
  replace (length (a :: old) - 1)%nat with (length old) by (simpl; lia).
  now rewrite replace_from_skip.
Qed.

Lemma replace_from_nomatch old new c s :
  startswith old (c :: s) = false ->
  replace_from 0 old new (c :: s) = c :: replace_from 0 old new s.
Proof. intros H. simpl replace_from. now rewrite H. Qed.

(** Induction on the text along the two equations. *)
Lemma replace_from_ind (P : str -> str -> Prop) a old new :
  P [] [] ->
  (forall s r, P s r -> P ((a :: old) ++ s) (new ++ r)) ->
  (forall c s r, startswith (a :: old) (c :: s) = false ->
                 P s r -> P (c :: s) (c :: r)) ->
  forall s, P s (replace_from 0 (a :: old) new s).
Proof.
  intros Hnil Hmatch Hskip s.
  remember (length s) as n eqn:Hn.
  revert s Hn. induction n as [n IH] using lt_wf_ind. intros s Hn.
  destruct s as [|c s]; [exact Hnil|].
  destruct (startswith (a :: old) (c :: s)) eqn:Hsw.
  - apply startswith_app in Hsw. rewrite Hsw, replace_from_match.
    apply Hmatch. eapply IH; [|reflexivity].
    subst n. rewrite Hsw at 2. rewrite length_app. simpl. lia.
  - rewrite replace_from_nomatch by exact Hsw.
    apply Hskip; [exact Hsw|]. eapply IH; [|reflexivity]. subst n. simpl. lia.
Qed.

Lemma shrinks_at_sound inside old new s :
  shrinks_at inside old new = true ->
  (cnt inside (new ++ s) <= cnt inside (old ++ s))%nat.
Proof.
  unfold shrinks_at. intros H. rewrite !cnt_app.
  pose proof (cnt_bounds s) as Hb.
  destruct (after inside new), (after inside old);
    first [apply Nat.leb_le in H | idtac]; lia.
Qed.

Lemma shrinks_sound old new inside s :
  shrinks (old, new) = true ->
  (cnt inside (new ++ s) <= cnt inside (old ++ s))%nat.
Proof.
  unfold shrinks. simpl. destruct old as [|a old]; [discriminate|].
  intros H. apply andb_prop in H as [H0 H1].
  destruct inside; now apply shrinks_at_sound.
Qed.

(** A token-shrinking replacement never adds a token, whatever precedes
    the text. *)
Lemma replace_cnt old new s inside :
  shrinks (old, new) = true ->
  (cnt inside (replace old new s) <= cnt inside s)%nat.
Proof.
  intros Hok. destruct old as [|a old]; [discriminate|].
  unfold replace. revert inside.
  apply (replace_from_ind
           (fun s r => forall inside, (cnt inside r <= cnt inside s)%nat)).
  - intros; simpl; lia.
  - intros s0 r IH inside.
    etransitivity; [|eapply shrinks_sound, Hok].
    rewrite !cnt_app. specialize (IH (after inside new)). lia.
  - intros c s0 r _ IH inside. simpl.
    destruct (isspace c); [apply IH|]. specialize (IH true). lia.
Qed.

Lemma replace_all_cnt table s inside :
  forallb shrinks table = true ->
  (cnt inside (replace_all table s) <= cnt inside s)%nat.
Proof.
  unfold replace_all. revert s.
  induction table as [|[old new] table IH]; intros s H; simpl; [lia|].
  apply andb_prop in H as [Hp Ht].
  etransitivity; [apply IH, Ht|]. now apply replace_cnt.
Qed.

End ReplaceFacts.

Section StripFacts.

Implicit Types (s t : str).

Lemma cnt_spaces inside t :
  Forall (fun c => isspace c = true) t -> cnt inside t = 0%nat.
Proof.
  intros H. revert inside. induction H as [|c t Hc _ IH]; intros inside;
    simpl; [reflexivity|]. rewrite Hc. apply IH.
Qed.

Lemma lstrip_prefix s :
  exists t, s = t ++ lstrip s /\ Forall (fun c => isspace c = true) t.
Proof.
  induction s as [|c s (t & Ht & Hsp)]; [exists []; split; [reflexivity|constructor]|].
  simpl. destruct (isspace c) eqn:Hc.
  - exists (c :: t). split; [simpl; now f_equal | now constructor].
  - exists []. split; [reflexivity | constructor].
Qed.

Lemma rstrip_suffix s :
  exists t, s = rstrip s ++ t /\ Forall (fun c => isspace c = true) t.
Proof.
  destruct (lstrip_prefix (rev s)) as (t & Ht & Hsp).
  exists (rev t). split; [|now apply Forall_rev].
  unfold rstrip. rewrite <- rev_app_distr, <- Ht. symmetry. apply rev_involutive.
Qed.

Lemma lstrip_cnt s : cnt false (lstrip s) = cnt false s.
Proof.
  destruct (lstrip_prefix s) as (t & Ht & Hsp).
  assert (Ha : after false t = false).
  { clear Ht. induction Hsp as [|c t Hc _ IH]; [reflexivity|].
    simpl. now rewrite Hc. }
  rewrite Ht at 2. now rewrite cnt_app, (cnt_spaces _ t Hsp), Ha.
Qed.

Lemma rstrip_cnt inside s : cnt inside (rstrip s) = cnt inside s.
Proof.
  destruct (rstrip_suffix s) as (t & Ht & Hsp).
  rewrite Ht at 2. rewrite cnt_app, (cnt_spaces _ t Hsp). lia.
Qed.

Lemma strip_cnt s : cnt false (strip s) = cnt false s.
Proof. unfold strip. now rewrite rstrip_cnt, lstrip_cnt. Qed.

Lemma length_split_strip s : length (split (strip s)) = length (split s).
Proof. now rewrite !length_split, strip_cnt. Qed.

End StripFacts.

(** ** [_entropy_optimization] never raises and is a filter *)

Section EntropyFacts.

Implicit Types (words : list str) (word w : str) (m : gmap str Z).

Lemma occurrences_cons x w words :
  occurrences w (x :: words) =
    if decide (x = w) then occurrences w words + 1 else occurrences w words.
Proof.
  unfold occurrences. simpl.
  destruct (decide (x = w)) as [Heq|Hne].
  - rewrite bool_decide_eq_true_2 by exact Heq. simpl. lia.
  - now rewrite bool_decide_eq_false_2 by exact Hne.
Qed.

Lemma occurrences_nonneg w words : 0 <= occurrences w words.
Proof. unfold occurrences. lia. Qed.

Lemma occurrences_pos w words : In w words -> 0 < occurrences w words.
Proof.
  induction words as [|x words IH]; [intros []|].
  intros Hin. rewrite occurrences_cons.
  pose proof (occurrences_nonneg w words).
  destruct (decide (x = w)) as [|Hne]; [lia|].
  destruct Hin as [Heq|Hin]; [contradiction | now apply IH].
Qed.

Lemma count_words_from words m w :
  fold_left
    (fun word_freq word =>
       <[word := default 0 (word_freq !! word) + 1]> word_freq) words m !! w
  = if decide (occurrences w words = 0) then m !! w
    else Some (default 0 (m !! w) + occurrences w words).
Proof.
  revert m. induction words as [|x words IH]; intros m.
  - reflexivity.
  - simpl fold_left. rewrite IH, occurrences_cons.
    pose proof (occurrences_nonneg w words).
    destruct (decide (x = w)) as [->|Hne].
    + rewrite lookup_insert_eq. simpl.
      destruct (decide (occurrences w words = 0)) as [Hz|Hz];
        destruct (decide (occurrences w words + 1 = 0)); try lia;
        f_equal; lia.
    + now rewrite lookup_insert_ne by exact Hne.
Qed.

Lemma getitem_count_words words w :
  In w words ->
  App.getitem (App.count_words words) w = Ok (occurrences w words).
Proof.
  intros Hin. unfold App.getitem, App.count_words.
  rewrite count_words_from, lookup_empty. simpl.
  apply occurrences_pos in Hin.
  destruct (decide (occurrences w words = 0)); [lia|].
  reflexivity.
Qed.

Lemma entropy_loop_cons m total word words acc :
  App.entropy_loop m total (word :: words) acc =
    count ← App.getitem m word;
    frequency ← truediv count total;
    if App.Qgtb frequency 0.1
    then App.entropy_loop m total words (acc ++ [word])
    else if (6 <? length word)%nat
    then App.entropy_loop m total words (acc ++ [word])
    else App.entropy_loop m total words acc.
Proof. reflexivity. Qed.

Lemma entropy_loop_filter all words acc :
  (forall w, In w words -> In w all) ->
  App.entropy_loop (App.count_words all) (Z.of_nat (length all)) words acc
  = Ok (acc ++ List.filter (entropy_keep all) words).
Proof.
  revert acc. induction words as [|word words IH]; intros acc Hsub.
  - simpl. now rewrite app_nil_r.
  - assert (Hin : In word all) by (apply Hsub; now left).
    assert (Hrest : forall w, In w words -> In w all)
      by (intros w Hw; apply Hsub; now right).
    assert (Hlen : (Z.of_nat (length all) =? 0) = false).
    { apply Z.eqb_neq. destruct all; [destruct Hin | simpl; lia]. }
    rewrite entropy_loop_cons, (getitem_count_words _ _ Hin).
    unfold truediv. rewrite Hlen.
    unfold mbind, res_bind.
    simpl List.filter.
    assert (Hkeep : entropy_keep all word =
              if App.Qgtb (inject_Z (occurrences word all)
                           / inject_Z (Z.of_nat (length all))) 0.1
              then true else (6 <? length word)%nat) by reflexivity.
    rewrite Hkeep.
    destruct (App.Qgtb _ _).
    + rewrite IH by exact Hrest. now rewrite <- app_assoc.
    + destruct (6 <? length word)%nat.
      * rewrite IH by exact Hrest. now rewrite <- app_assoc.
      * now rewrite IH by exact Hrest.
Qed.

Lemma entropy_optimization_filter prompt :
  App._entropy_optimization prompt = Ok (entropy_pruned prompt).
Proof.
  unfold App._entropy_optimization.
  rewrite entropy_loop_filter by auto. reflexivity.
Qed.

Lemma filter_is_word (keep : str -> bool) words :
  Forall (fun w => is_word w = true) words ->
  Forall (fun w => is_word w = true) (List.filter keep words).
Proof.
  induction 1 as [|w words Hw _ IH]; simpl; [constructor|].
  destruct (keep w); [now constructor | exact IH].
Qed.

(** The tokens of a text made by joining some of the words of a split
    are those words. *)
Lemma split_join_filter (keep : str -> bool) s :
  split (join (lit " ") (List.filter keep (split s)))
  = List.filter keep (split s).
Proof. apply split_join, filter_is_word, split_is_word. Qed.

Lemma length_filter_le {A} (f : A -> bool) (l : list A) :
  (length (List.filter f l) <= length l)%nat.
Proof. induction l as [|x l IH]; simpl; [lia|]. destruct (f x); simpl; lia. Qed.

End EntropyFacts.

(** ** The text pipeline of [api/optimize.py] never adds a token *)

Section ApiPipeline.

Implicit Types (prompt s : str).

Lemma remove_fillers_tokens s :
  split (Api.remove_fillers s) = List.filter Api.keep_word (split s).
Proof. apply split_join_filter. Qed.

Lemma normalize_punctuation_tokens s :
  (length (split (Api.normalize_punctuation s)) <= length (split s))%nat.
Proof.
  unfold Api.normalize_punctuation.
  rewrite length_split.
  etransitivity; [apply replace_all_cnt; vm_compute; reflexivity|].
  now rewrite <- length_split, split_join_split.
Qed.

Lemma optimize_text_tokens prompt :
  (length (split (Api.optimize_text prompt)) <= length (split prompt))%nat.
Proof.
  unfold Api.optimize_text. rewrite length_split_strip.
  rewrite length_split.
  etransitivity; [apply replace_all_cnt; vm_compute; reflexivity|].
  rewrite <- length_split.
  etransitivity; [apply normalize_punctuation_tokens|].
  rewrite remove_fillers_tokens.
  etransitivity; [apply length_filter_le|].
  rewrite !length_split.
  apply replace_all_cnt. vm_compute. reflexivity.
Qed.

(** [optimize_prompt] never raises: the divisor of the quality score is
    at least one, and the percentage is only divided out for a positive
    token count. *)
Lemma api_optimize_prompt_ok prompt :
  let original := Z.of_nat (length (split prompt)) in
  let optimized := Z.of_nat (length (split (Api.optimize_text prompt))) in
  let reduction := Z.max 0 (original - optimized) in
  exists r,
    Api.optimize_prompt prompt = Ok r
    /\ Api.original_prompt r = prompt
    /\ Api.optimized_prompt r = Api.optimize_text prompt
    /\ Api.original_tokens (Api.tokens r) = original
    /\ Api.optimized_tokens (Api.tokens r) = optimized
    /\ Api.cost_reduction r = (inject_Z reduction * 0.002)%Q
    /\ Api.quality_score r =
         Qmin 0.95
           (0.85 + inject_Z reduction / inject_Z (Z.max original 1) * 0.3)
    /\ Api.confidence (Api.insights r) = Api.quality_score r
    /\ Api.complexity_score (Api.insights r) =
         Qmin 1.0 (inject_Z original / 50.0).
Proof.
  intros original optimized reduction.
  unfold Api.optimize_prompt, truediv.
  fold original. fold optimized. fold reduction.
  destruct (Z.max original 1 =? 0) eqn:Hmax; [apply Z.eqb_eq in Hmax; lia|].
  destruct (0 <? original) eqn:Hpos.
  - destruct (original =? 0) eqn:Hz;
      [apply Z.eqb_eq in Hz; apply Z.ltb_lt in Hpos; lia|].
    eexists. split; [reflexivity|]. repeat split; reflexivity.
  - eexists. split; [reflexivity|]. repeat split; reflexivity.
Qed.

End ApiPipeline.

(** C4. For every prompt (the non-empty ones in particular) the text made by
    the pipeline of [api/optimize.py] (verbose-phrase replacement,
    filler-word removal, punctuation normalisation, pattern contraction,
    strip) has at most as many whitespace-separated tokens as the prompt,
    the token counts reported in the result are in that order, and the same
    holds of the text returned by the entropy pruning of [app.py]. *)
Theorem optimized_token_count_le_original (prompt : str) :
  (length (split (Api.optimize_text prompt)) <= length (split prompt))%nat
  /\ (exists r, Api.optimize_prompt prompt = Ok r
               /\ Api.optimized_prompt r = Api.optimize_text prompt
               /\ Api.optimized_tokens (Api.tokens r)
                  <= Api.original_tokens (Api.tokens r))
  /\ (exists text, App._entropy_optimization prompt = Ok text
                  /\ (length (split text) <= length (split prompt))%nat).
Proof.
  pose proof (optimize_text_tokens prompt) as Hle.
  split; [exact Hle|]. split.
  - destruct (api_optimize_prompt_ok prompt)
      as (r & Hr & _ & Htext & Horig & Hopt & _).
    exists r. repeat split; [exact Hr | exact Htext |].
    rewrite Horig, Hopt. lia.
  - eexists. split; [apply entropy_optimization_filter|].
    unfold entropy_pruned. rewrite split_join_filter. apply length_filter_le.
Qed.

(** ** The quality score *)

Section Quality.

Import Metrics.

Lemma reduction_ratio_range original optimized :
  0 <= optimized ->
  (0 <= reduction_ratio original optimized <= 1)%Q.
Proof.
  intros Hopt. unfold reduction_ratio, reduction.
  assert (Hpos : (0 < inject_Z (Z.max original 1))%Q).
  { change 0%Q with (inject_Z 0). rewrite <- Zlt_Qlt. lia. }
  split.
  - apply Qle_shift_div_l; [exact Hpos|].
    rewrite Qmult_0_l. change 0%Q with (inject_Z 0). rewrite <- Zle_Qle. lia.
  - apply Qle_shift_div_r; [exact Hpos|].
    rewrite Qmult_1_l. rewrite <- Zle_Qle. lia.
Qed.

Lemma quality_formula_range base ratio :
  (base <= 0.95)%Q -> (0 <= ratio)%Q ->
  (base <= quality_formula base ratio <= 0.95)%Q.
Proof.
  intros Hbase Hratio. unfold quality_formula. split.
  - apply Q.min_glb; [exact Hbase | lra].
  - apply Q.le_min_l.
Qed.

Lemma quality_formula_mono base ratio1 ratio2 :
  (ratio1 <= ratio2)%Q ->
  (quality_formula base ratio1 <= quality_formula base ratio2)%Q.
Proof.
  intros H. unfold quality_formula. apply Q.min_le_compat_l. lra.
Qed.

(** What [simple_optimize_prompt] returns on a prompt with a token. *)
Lemma simple_optimize_prompt_ok prompt :
  let original := Z.of_nat (length (split prompt)) in
  let optimized :=
    Z.of_nat (length (split (SimpleApp.optimize_text prompt))) in
  split prompt <> [] ->
  exists r,
    SimpleApp.simple_optimize_prompt prompt = Ok r
    /\ SimpleApp.original_tokens (SimpleApp.tokens r) = original
    /\ SimpleApp.optimized_tokens (SimpleApp.tokens r) = optimized
    /\ SimpleApp.quality_score r =
         quality_formula 0.8 (reduction_ratio original optimized)
    /\ SimpleApp.confidence (SimpleApp.insights r) = SimpleApp.quality_score r.
Proof.
  intros original optimized Hne.
  assert (Hpos : 0 < original).
  { unfold original. destruct (split prompt); [contradiction | simpl; lia]. }
  unfold SimpleApp.simple_optimize_prompt, truediv.
  fold original. fold optimized.
  destruct (original =? 0) eqn:Hz; [apply Z.eqb_eq in Hz; lia|].
  destruct (0 <? original) eqn:Hlt; [|apply Z.ltb_ge in Hlt; lia].
  eexists. split; [reflexivity|]. repeat split; try reflexivity.
  unfold quality_formula, reduction_ratio, reduction. simpl.
  now replace (Z.max original 1) with original by lia.
Qed.

End Quality.

(** C3, counterexample: on the one-token prompt ["hello"] the simple
    service reduces nothing and returns the quality score 0.8, which is
    neither the value of the stated formula (0.85) nor within
    [0.85, 0.95]. *)
Lemma quality_score_simple_app_below_floor :
  exists r,
    SimpleApp.simple_optimize_prompt (lit "hello") = Ok r
    /\ SimpleApp.original_tokens (SimpleApp.tokens r) = 1
    /\ SimpleApp.optimized_tokens (SimpleApp.tokens r) = 1
    /\ (SimpleApp.quality_score r == 0.8)%Q
    /\ ~ (SimpleApp.quality_score r
          == Metrics.quality_formula 0.85 (Metrics.reduction_ratio 1 1))%Q
    /\ ~ (0.85 <= SimpleApp.quality_score r)%Q.
Proof.
  eexists. split; [vm_compute; reflexivity|].
  repeat split; try reflexivity; vm_compute; congruence.
Qed.

(** C3, amended. In [api/optimize.py], for every prompt, the quality score
    is [min(0.95, 0.85 + ratio * 0.3)] for the ratio of the token reduction
    to [max(original_tokens, 1)]; it lies in [0.85, 0.95], does not decrease
    when the ratio grows, and the confidence is the same number.  In
    [simple_app.py] the base is 0.8 instead: for every prompt with at least
    one token the score is [min(0.95, 0.8 + ratio * 0.3)], within
    [0.8, 0.95], and again equal to the confidence. *)
Theorem quality_score_by_variant :
  (forall prompt, exists r,
      Api.optimize_prompt prompt = Ok r
      /\ Api.quality_score r =
           Metrics.quality_formula 0.85
             (Metrics.reduction_ratio (Api.original_tokens (Api.tokens r))
                (Api.optimized_tokens (Api.tokens r)))
      /\ (0.85 <= Api.quality_score r <= 0.95)%Q
      /\ Api.confidence (Api.insights r) = Api.quality_score r)
  /\ (forall p1 p2 r1 r2,
        Api.optimize_prompt p1 = Ok r1 ->
        Api.optimize_prompt p2 = Ok r2 ->
        (Metrics.reduction_ratio (Api.original_tokens (Api.tokens r1))
           (Api.optimized_tokens (Api.tokens r1))
         <= Metrics.reduction_ratio (Api.original_tokens (Api.tokens r2))
              (Api.optimized_tokens (Api.tokens r2)))%Q ->
        (Api.quality_score r1 <= Api.quality_score r2)%Q)
  /\ (forall prompt,
        split prompt <> [] ->
        exists r,
          SimpleApp.simple_optimize_prompt prompt = Ok r
          /\ SimpleApp.quality_score r =
               Metrics.quality_formula 0.8
                 (Metrics.reduction_ratio
                    (SimpleApp.original_tokens (SimpleApp.tokens r))
                    (SimpleApp.optimized_tokens (SimpleApp.tokens r)))
          /\ (0.8 <= SimpleApp.quality_score r <= 0.95)%Q
          /\ SimpleApp.confidence (SimpleApp.insights r)
             = SimpleApp.quality_score r).
Proof.
  assert (Hapi : forall prompt r,
             Api.optimize_prompt prompt = Ok r ->
             Api.quality_score r =
               Metrics.quality_formula 0.85
                 (Metrics.reduction_ratio (Api.original_tokens (Api.tokens r))
                    (Api.optimized_tokens (Api.tokens r)))
             /\ 0 <= Api.optimized_tokens (Api.tokens r)
             /\ Api.confidence (Api.insights r) = Api.quality_score r).
  { intros prompt r Hr.
    destruct (api_optimize_prompt_ok prompt)
      as (r' & Hr' & _ & _ & Horig & Hopt & _ & Hq & Hconf & _).
    rewrite Hr in Hr'. injection Hr' as <-.
    rewrite Horig, Hopt. repeat split; [exact Hq | lia | exact Hconf]. }
  split; [|split].
  - intros prompt.
    destruct (api_optimize_prompt_ok prompt) as (r & Hr & _).
    destruct (Hapi _ _ Hr) as (Hq & Hopt & Hconf).
    exists r. repeat split; try assumption; rewrite Hq;
      apply quality_formula_range; try lra;
      now apply reduction_ratio_range.
  - intros p1 p2 r1 r2 H1 H2 Hle.
    destruct (Hapi _ _ H1) as (-> & _). destruct (Hapi _ _ H2) as (-> & _).
    now apply quality_formula_mono.
  - intros prompt Hne.
    destruct (simple_optimize_prompt_ok prompt Hne)
      as (r & Hr & Horig & Hopt & Hq & Hconf).
    exists r. rewrite Horig, Hopt.
    repeat split; try assumption; rewrite Hq;
      apply quality_formula_range; try lra;
      apply reduction_ratio_range; lia.
Qed.

(** The simple service at the two-token prompt ["hello world"]. *)
Lemma quality_score_by_variant_witness :
  split (lit "hello world") <> []
  /\ exists r,
       SimpleApp.simple_optimize_prompt (lit "hello world") = Ok r
       /\ SimpleApp.quality_score r =
            Metrics.quality_formula 0.8
              (Metrics.reduction_ratio
                 (SimpleApp.original_tokens (SimpleApp.tokens r))
                 (SimpleApp.optimized_tokens (SimpleApp.tokens r)))
       /\ (0.8 <= SimpleApp.quality_score r <= 0.95)%Q
       /\ SimpleApp.confidence (SimpleApp.insights r)
          = SimpleApp.quality_score r.
Proof.
  split; [vm_compute; discriminate|].
  apply (proj2 (proj2 quality_score_by_variant)).
  vm_compute; discriminate.
Defined.

(** C10. For every prompt whose whitespace split is empty,
    [simple_optimize_prompt] raises [ZeroDivisionError] at the quality
    score (the endpoint answers 500), whereas [optimize_prompt] of
    [api/optimize.py], which divides by [max(original_tokens, 1)], returns a
    result, with zero tokens and quality score 0.85. *)
Theorem empty_split_division_by_zero (request : OptimizationRequest) :
  split (prompt request) = [] ->
  SimpleApp.simple_optimize_prompt (prompt request) = Raise ZeroDivisionError
  /\ SimpleApp.optimize_prompt request = HTTPException 500 ZeroDivisionError
  /\ exists r,
       Api.optimize_prompt (prompt request) = Ok r
       /\ Api.optimize request = Http200 r
       /\ Api.original_tokens (Api.tokens r) = 0
       /\ (Api.quality_score r == 0.85)%Q.
Proof.
  intros Hempty.
  assert (Hsimple :
    SimpleApp.simple_optimize_prompt (prompt request) = Raise ZeroDivisionError).
  { unfold SimpleApp.simple_optimize_prompt. rewrite Hempty. reflexivity. }
  split; [exact Hsimple|]. split.
  - unfold SimpleApp.optimize_prompt. now rewrite Hsimple.
  - destruct (api_optimize_prompt_ok (prompt request))
      as (r & Hr & _ & _ & Horig & _ & _ & Hq & _).
    pose proof (optimize_text_tokens (prompt request)) as Hle.
    rewrite Hempty in Hle, Horig, Hq.
    change (length (@nil str)) with 0%nat in Hle, Hq.
    exists r. split; [exact Hr|]. split; [|split; [exact Horig|]].
    + unfold Api.optimize. now rewrite Hr.
    + rewrite Hq.
      replace (length (split (Api.optimize_text (prompt request)))) with 0%nat
        by lia.
      reflexivity.
Qed.

(** The two services at a prompt of three spaces. *)
Lemma empty_split_division_by_zero_witness :
  let request :=
    {| prompt := lit "   "; context := lit "general"; budget := 0.05;
       quality_threshold := 0.95; optimization_strategy := lit "auto" |} in
  split (prompt request) = []
  /\ SimpleApp.simple_optimize_prompt (prompt request) = Raise ZeroDivisionError
  /\ SimpleApp.optimize_prompt request = HTTPException 500 ZeroDivisionError.
Proof.
  intros request.
  split; [reflexivity|].
  destruct (empty_split_division_by_zero request eq_refl) as (H1 & H2 & _).
  split; [exact H1 | exact H2].
Defined.

(** ** Requests that a validating service would reject *)

Section Unvalidated.

Implicit Types (s old new : str).

Lemma split_nil_spaces s :
  split s = [] -> Forall (fun c => isspace c = true) s.
Proof.
  induction s as [|c s IH]; [constructor|].
  destruct (isspace c) eqn:Hc.
  - rewrite (split_space _ _ Hc). intros H. constructor; [exact Hc | auto].
  - rewrite (split_nonspace _ _ Hc).
    destruct (starts_word s); [destruct (split s)|]; discriminate.
Qed.

(** A phrase that begins with a letter does not occur in white space. *)
Lemma replace_spaces old new s :
  starts_word old = true ->
  Forall (fun c => isspace c = true) s ->
  replace old new s = s.
Proof.
  destruct old as [|a old]; [discriminate|].
  simpl starts_word. intros Ha Hs. apply negb_true_iff in Ha.
  unfold replace. induction Hs as [|c s Hc _ IH]; [reflexivity|].
  rewrite replace_from_nomatch; [now f_equal|].
  simpl. destruct (ascii_dec a c) as [->|]; [congruence | reflexivity].
Qed.

Lemma replace_all_spaces table s :
  forallb (fun p => starts_word (fst p)) table = true ->
  Forall (fun c => isspace c = true) s ->
  replace_all table s = s.
Proof.
  unfold replace_all. intros Ht Hs.
  induction table as [|[old new] table IH]; [reflexivity|].
  simpl in Ht. apply andb_prop in Ht as [Hp Ht].
  simpl fold_left. rewrite (replace_spaces _ _ _ Hp Hs). now apply IH.
Qed.

Lemma optimize_text_spaces s : split s = [] -> Api.optimize_text s = [].
Proof.
  intros Hs. unfold Api.optimize_text.
  rewrite (replace_all_spaces Api.verbose_replacements s);
    [| vm_compute; reflexivity | now apply split_nil_spaces].
  unfold Api.remove_fillers. rewrite Hs. reflexivity.
Qed.

Lemma strategies_getitem_unknown strategy :
  ~ In strategy (map fst App.strategies) ->
  App.strategies_getitem App.strategies strategy = Raise (KeyError strategy).
Proof.
  intros Hnot. unfold App.strategies.
  repeat (cbn [App.strategies_getitem];
          destruct (decide _) as [Heq|_];
          [exfalso; apply Hnot; rewrite <- Heq; cbn; tauto|]).
  reflexivity.
Qed.

End Unvalidated.

(** C2, counterexample: [api/optimize.py] answers 200 with a result for the
    empty prompt, and for a request whose strategy hint names no strategy
    (the hint is not read; the usual pipeline runs). *)
Lemma optimize_returns_result_for_invalid_requests :
  (exists r,
      Api.optimize
        {| prompt := lit ""; context := lit "general"; budget := 0.05;
           quality_threshold := 0.95; optimization_strategy := lit "auto" |}
      = Http200 r
      /\ Api.optimized_prompt r = lit "")
  /\ (exists r,
        Api.optimize
          {| prompt := lit "build a chatbot"; context := lit "general";
             budget := 0.05; quality_threshold := 0.95;
             optimization_strategy := lit "no_such_strategy" |}
        = Http200 r
        /\ Api.optimized_prompt r = lit "build chatbot").
Proof.
  split; eexists; (split; [vm_compute; reflexivity | reflexivity]).
Qed.

(** C2, amended. No request is validated.  In [api/optimize.py] the
    optimize operation answers every request with a result that depends on
    the prompt alone (the strategy hint is not read); for an empty or
    whitespace-only prompt that result has the empty optimized text, zero
    tokens before and after, and no cost reduction.  In [app.py] a strategy
    hint that is neither ["auto"] nor a key of the strategy table makes the
    operation answer 500, with the [KeyError] of the table lookup once the
    predictor has returned, before any transform is applied; nothing is
    recorded and nothing is broadcast. *)
Theorem optimize_without_validation :
  (forall request, exists r,
      Api.optimize request = Http200 r
      /\ Api.optimize_prompt (prompt request) = Ok r)
  /\ (forall request request',
        prompt request = prompt request' ->
        Api.optimize request = Api.optimize request')
  /\ (forall request,
        split (prompt request) = [] ->
        exists r,
          Api.optimize request = Http200 r
          /\ Api.optimized_prompt r = []
          /\ Api.original_tokens (Api.tokens r) = 0
          /\ Api.optimized_tokens (Api.tokens r) = 0
          /\ (Api.cost_reduction r == 0)%Q)
  /\ (forall (handle : Type) (Heq : EqDecision handle)
             (fails : handle -> bool)
             (predict : str -> str -> Q -> Q -> res (Q * Q * Q))
             (encode : str -> res (list Z)) (now : Z)
             (request : OptimizationRequest) (st : App.state),
        ~ In (optimization_strategy request) App.recognized_strategies ->
        exists e,
          App.optimize_prompt fails predict encode now request st
          = Some (HTTPException 500 e, st)
          /\ (forall prediction,
                predict (prompt request) (context request) (budget request)
                  (quality_threshold request) = Ok prediction ->
                e = KeyError (optimization_strategy request))).
Proof.
  split; [|split; [|split]].
  - intros request.
    destruct (api_optimize_prompt_ok (prompt request)) as (r & Hr & _).
    exists r. split; [|exact Hr]. unfold Api.optimize. now rewrite Hr.
  - intros request request' Heq. unfold Api.optimize. now rewrite Heq.
  - intros request Hempty.
    destruct (api_optimize_prompt_ok (prompt request))
      as (r & Hr & _ & Htext & Horig & Hopt & Hcost & _).
    rewrite (optimize_text_spaces _ Hempty) in Htext, Hopt, Hcost.
    rewrite Hempty in Horig, Hcost.
    exists r. unfold Api.optimize. rewrite Hr.
    repeat split; try assumption. now rewrite Hcost.
  - intros handle Heq fails predict encode now request st Hnot.
    assert (Hauto : optimization_strategy request <> lit "auto")
      by (intros E; apply Hnot; left; now rewrite E).
    assert (Hkey : ~ In (optimization_strategy request) (map fst App.strategies))
      by (intros E; apply Hnot; now right).
    unfold App.optimize_prompt, App.build_result, App.predict_optimization,
      App.select_strategy, App.apply_strategy.
    destruct (predict _ _ _ _) as [[[cost quality] conf]|e0].
    + exists (KeyError (optimization_strategy request)).
      split; [|reflexivity].
      unfold mbind, res_bind, mret, res_ret.
      destruct (decide (optimization_strategy request = lit "auto"));
        [contradiction|].
      now rewrite (strategies_getitem_unknown _ Hkey).
    + exists e0. split; [reflexivity | discriminate].
Qed.

(** A blank prompt in [api/optimize.py], and an unknown hint in [app.py]
    with one subscriber connected. *)
Lemma optimize_without_validation_witness :
  let blank :=
    {| prompt := lit "   "; context := lit "general"; budget := 0.05;
       quality_threshold := 0.95; optimization_strategy := lit "auto" |} in
  let unknown :=
    {| prompt := lit "build a chatbot"; context := lit "general";
       budget := 0.05; quality_threshold := 0.95;
       optimization_strategy := lit "no_such_strategy" |} in
  let st : @App.state nat :=
    {| App.metrics_history := []; App.active_connections := [1%nat];
       App.delivered := [] |} in
  (split (prompt blank) = []
   /\ exists r, Api.optimize blank = Http200 r /\ Api.optimized_prompt r = [])
  /\ (~ In (optimization_strategy unknown) App.recognized_strategies
      /\ exists e,
           App.optimize_prompt (fun _ => false)
             (fun _ _ _ _ => Ok (0.2, 0.9, 0.5)%Q)
             (fun s => Ok (map (fun c => Z.of_N (N_of_ascii c)) s))
             0 unknown st
           = Some (HTTPException 500 e, st)
           /\ e = KeyError (lit "no_such_strategy")).
Proof.
  intros blank unknown st.
  assert (Hnot : ~ In (optimization_strategy unknown) App.recognized_strategies).
  { intros H. vm_compute in H.
    repeat (destruct H as [H|H]; [discriminate H|]). exact H. }
  split; split.
  - reflexivity.
  - destruct (proj1 (proj2 (proj2 optimize_without_validation)) blank eq_refl)
      as (r & Hr & Htext & _).
    exists r. split; assumption.
  - exact Hnot.
  - destruct (proj2 (proj2 (proj2 optimize_without_validation))
               nat _ (fun _ => false) (fun _ _ _ _ => Ok (0.2, 0.9, 0.5)%Q)
               (fun s => Ok (map (fun c => Z.of_N (N_of_ascii c)) s))
               0 unknown st Hnot) as (e & Hrun & He).
    exists e. split; [exact Hrun | exact (He _ eq_refl)].
Defined.

(** ** Filler-word removal *)

Section Fillers.

Implicit Types (text word : str).

Lemma filter_sublist {A} (f : A -> bool) (l : list A) :
  List.filter f l `sublist_of` l.
Proof.
  induction l as [|x l IH]; simpl; [constructor|].
  destruct (f x); now constructor.
Qed.

Lemma mem_In word (l : list str) : mem word l = true <-> In word l.
Proof. unfold mem. rewrite bool_decide_eq_true. apply list_elem_of_In. Qed.

Lemma api_keep_word_false word :
  Api.keep_word word = false
  <-> In (lower word) Api.filler_words /\ (length word <= 3)%nat.
Proof.
  unfold Api.keep_word. rewrite orb_false_iff, negb_false_iff, mem_In.
  rewrite Nat.ltb_ge. reflexivity.
Qed.

Lemma start_keep_word_false word :
  StartFastapi.keep_word word = false
  <-> In (lower word) StartFastapi.filler_words.
Proof.
  unfold StartFastapi.keep_word. now rewrite negb_false_iff, mem_In.
Qed.

End Fillers.

(** C8, counterexample: the filler-word removal of [start-fastapi.py] has
    no length guard; it drops the four-letter stop word ["with"] (and
    ["please"]), which the claim says is always kept. *)
Lemma start_fastapi_drops_long_stop_words :
  In (lower (lit "with")) StartFastapi.filler_words
  /\ (3 < length (lit "with"))%nat
  /\ split (lit "work with me please") = map lit ["work"; "with"; "me"; "please"]
  /\ split (StartFastapi.remove_fillers (lit "work with me please"))
     = map lit ["work"; "me"].
Proof.
  split; [vm_compute; tauto|]. split; [vm_compute; lia|].
  split; vm_compute; reflexivity.
Qed.

(** C8, amended. The filler-word removal of [api/optimize.py] tokenizes on
    white space and drops a token exactly when its lower-case form is in
    the stop-word set and it has at most three characters; so a token of
    more than three characters is always kept, stop word or not, and the
    surviving tokens are the kept ones in their original order.  The
    removal of [start-fastapi.py] has no length guard: it drops a token
    exactly when its lower-case form is in that file's stop-word list. *)
Theorem filler_removal_by_variant :
  (forall text,
      split (Api.remove_fillers text) = List.filter Api.keep_word (split text)
      /\ split (Api.remove_fillers text) `sublist_of` split text)
  /\ (forall word,
        Api.keep_word word = false
        <-> In (lower word) Api.filler_words /\ (length word <= 3)%nat)
  /\ (forall text word,
        In word (split text) -> (3 < length word)%nat ->
        In word (split (Api.remove_fillers text)))
  /\ (forall text,
        split (StartFastapi.remove_fillers text)
        = List.filter StartFastapi.keep_word (split text))
  /\ (forall word,
        StartFastapi.keep_word word = false
        <-> In (lower word) StartFastapi.filler_words).
Proof.
  split; [|split; [|split; [|split]]].
  - intros text. rewrite remove_fillers_tokens.
    split; [reflexivity | apply filter_sublist].
  - apply api_keep_word_false.
  - intros text word Hin Hlen. rewrite remove_fillers_tokens.
    apply filter_In. split; [exact Hin|].
    destruct (Api.keep_word word) eqn:Hk; [reflexivity|].
    apply api_keep_word_false in Hk. lia.
  - intros text. apply split_join_filter.
  - apply start_keep_word_false.
Qed.

(** The stop word ["with"] survives the removal of [api/optimize.py]. *)
Lemma filler_removal_by_variant_witness :
  In (lit "with") (split (lit "Work with the team"))
  /\ (3 < length (lit "with"))%nat
  /\ In (lit "with") (split (Api.remove_fillers (lit "Work with the team"))).
Proof.
  assert (Hin : In (lit "with") (split (lit "Work with the team")))
    by (vm_compute; tauto).
  assert (Hlen : (3 < length (lit "with"))%nat) by (vm_compute; lia).
  split; [exact Hin|]. split; [exact Hlen|].
  exact (proj1 (proj2 (proj2 filler_removal_by_variant)) _ _ Hin Hlen).
Defined.

(** ** The complexity score *)

Section Complexity.

Implicit Types (prompt : str).

Lemma lower_char_idempotent c : lower_char (lower_char c) = lower_char c.
Proof.
  destruct c as [[] [] [] [] [] [] [] []]; vm_compute; reflexivity.
Qed.

Lemma lower_idempotent prompt : lower (lower prompt) = lower prompt.
Proof.
  unfold lower. rewrite map_map. apply map_ext. apply lower_char_idempotent.
Qed.



Lemma scaled_count_range (n : Z) (d : Q) :
  0 <= n -> (0 < d)%Q ->
  (0 <= Qmin 1.0 (inject_Z n / d) <= 1)%Q.
Proof.
  intros Hn Hd. split.
  - apply Q.min_glb; [unfold Qle; simpl; lia|].
    apply Qle_shift_div_l.
    + exact Hd.
    + rewrite Qmult_0_l. change 0%Q with (inject_Z 0). rewrite <- Zle_Qle. lia.
  - apply Qle_trans with 1.0%Q; [apply Q.le_min_l | unfold Qle; simpl; lia].
Qed.

End Complexity.


(** An entry of the list counts once however often it occurs. *)
Example complexity_counts_entries_once :
  (App._calculate_complexity (lit "An ALGORITHM is an algorithm") == 1 # 5)%Q.
Proof. vm_compute. reflexivity. Qed.



(** ** Strategy selection under the hint ["auto"] *)

Section AutoStrategy.

Lemma res_bind_Ok {A B} (a : A) (f : A -> res B) : Ok a ≫= f = f a.
Proof. reflexivity. Qed.

Lemma Qgtb_true a b : App.Qgtb a b = true <-> (b < a)%Q.
Proof.
  unfold App.Qgtb. rewrite negb_true_iff, <- not_true_iff_false, Qle_bool_iff.
  split; [apply Qnot_le_lt | apply Qlt_not_le].
Qed.

Lemma Qgtb_false a b : App.Qgtb a b = false <-> (a <= b)%Q.
Proof. unfold App.Qgtb. now rewrite negb_false_iff, Qle_bool_iff. Qed.

(** The hint ["auto"] runs one of three transforms, chosen by the two
    comparisons of the complexity score. *)
Lemma auto_strategy_run (ins : App.ml_insights) (prompt : str) :
  App.apply_strategy (App.select_strategy (lit "auto") ins) prompt ins =
    Ok (if App.Qgtb (App.complexity_score ins) 0.7
        then entropy_pruned prompt
        else if App.Qgtb (App.complexity_score ins) 0.4
        then App._context_aware_trimming
               (App._semantic_compression (entropy_pruned prompt))
        else App._semantic_compression prompt).
Proof.
  unfold App.select_strategy.
  destruct (decide (lit "auto" = lit "auto")) as [_|]; [|contradiction].
  destruct (App.Qgtb (App.complexity_score ins) 0.7) eqn:Hhigh.
  - change (App.apply_strategy (lit "ml_guided_optimization") prompt ins)
      with (App._ml_guided_optimization prompt ins).
    unfold App._ml_guided_optimization. rewrite Hhigh.
    apply entropy_optimization_filter.
  - destruct (App.Qgtb (App.complexity_score ins) 0.4) eqn:Hmid.
    + change (App.apply_strategy (lit "adaptive_compression") prompt ins)
        with (App._adaptive_compression prompt).
      unfold App._adaptive_compression.
      now rewrite entropy_optimization_filter.
    + reflexivity.
Qed.

End AutoStrategy.

(** ** The bounded history of [RealTimeAnalytics] *)

Section History.

Import Runs.

Context `{pandas : !App.Pandas}.

Implicit Types (h : list App.metrics_entry) (r : App.OptimizationResult).

Lemma last_n_short {A} (n : nat) (l : list A) :
  (length l <= n)%nat -> App.last_n n l = l.
Proof.
  intros H. unfold App.last_n.
  now replace (length l - n)%nat with 0%nat by lia.
Qed.

Lemma length_last_n {A} (n : nat) (l : list A) :
  length (App.last_n n l) = Nat.min n (length l).
Proof. unfold App.last_n. rewrite length_drop. lia. Qed.

Lemma last_n_app_last_n {A} (n : nat) (l l' : list A) :
  App.last_n n (App.last_n n l ++ l') = App.last_n n (l ++ l').
Proof.
  destruct (Nat.le_gt_cases (length l) n) as [Hle|Hgt].
  - now rewrite (last_n_short n l Hle).
  - unfold App.last_n at 1 3. rewrite !length_app, length_last_n.
    unfold App.last_n.
    replace (Nat.min n (length l) + length l' - n)%nat with (length l')
      by lia.
    replace (length l + length l' - n)%nat
      with ((length l - n) + length l')%nat by lia.
    rewrite <- drop_drop. f_equal.
    rewrite drop_app_le by lia. reflexivity.
Qed.

(** One call keeps the last 1000 entries of the extended history. *)
Lemma update_metrics_last_n now r h :
  App.update_metrics now r h = App.last_n 1000 (h ++ [entry_of (now, r)]).
Proof.
  unfold App.update_metrics, entry_of. simpl fst. simpl snd.
  destruct (1000 <? length _)%nat eqn:Hlen; [reflexivity|].
  apply Nat.ltb_ge in Hlen. now rewrite last_n_short.
Qed.

Lemma record_all_last_n calls (l : list App.metrics_entry) :
  record_all calls (App.last_n 1000 l)
  = App.last_n 1000 (l ++ map entry_of calls).
Proof.
  revert l. induction calls as [|[now r] calls IH]; intros l.
  - simpl. now rewrite app_nil_r.
  - simpl. rewrite update_metrics_last_n, last_n_app_last_n, IH.
    now rewrite <- app_assoc.
Qed.

Lemma total_optimizations_length h :
  App.total_optimizations (App.get_real_time_analytics h)
  = Z.of_nat (length h).
Proof. destruct h; reflexivity. Qed.

End History.

(** C5. For every sequence of record calls the history never has more
    than 1000 entries and holds the most recently recorded results, up to
    1000 of them, in insertion order.  A record followed at once by a
    snapshot reports one more count as long as the history held fewer than
    1000 entries; on a history of 1000 entries the oldest one is evicted and
    the count stays 1000.  After 1001 record calls the history has exactly
    1000 entries, all but the first recorded.  The counts do not depend on
    what pandas computes for the other fields of the snapshot. *)
Theorem metrics_history_bounded_fifo `{pandas : !App.Pandas} :
  (forall calls,
      (length (Runs.record_all calls []) <= 1000)%nat
      /\ Runs.record_all calls []
         = App.last_n 1000 (map Runs.entry_of calls))
  /\ (forall now r h,
        (length (App.update_metrics now r h) <= 1000)%nat)
  /\ (forall now r h,
        (length h < 1000)%nat ->
        App.update_metrics now r h = h ++ [Runs.entry_of (now, r)]
        /\ App.total_optimizations
             (App.get_real_time_analytics (App.update_metrics now r h))
           = App.total_optimizations (App.get_real_time_analytics h) + 1)
  /\ (forall now r h,
        length h = 1000%nat ->
        App.update_metrics now r h = drop 1 h ++ [Runs.entry_of (now, r)]
        /\ App.total_optimizations
             (App.get_real_time_analytics (App.update_metrics now r h))
           = App.total_optimizations (App.get_real_time_analytics h))
  /\ (forall calls,
        length calls = 1001%nat ->
        length (Runs.record_all calls []) = 1000%nat
        /\ Runs.record_all calls [] = drop 1 (map Runs.entry_of calls)).
Proof.
  assert (Hall : forall calls,
             Runs.record_all calls []
             = App.last_n 1000 (map Runs.entry_of calls)).
  { intros calls. exact (record_all_last_n calls []). }
  split; [|split; [|split; [|split]]].
  - intros calls. split; [|apply Hall].
    rewrite Hall, length_last_n. lia.
  - intros now r h. rewrite update_metrics_last_n, length_last_n. lia.
  - intros now r h Hlen.
    assert (Heq : App.update_metrics now r h = h ++ [Runs.entry_of (now, r)]).
    { rewrite update_metrics_last_n. apply last_n_short.
      rewrite length_app. simpl. lia. }
    split; [exact Heq|].
    rewrite !total_optimizations_length, Heq, length_app. simpl. lia.
  - intros now r h Hlen.
    assert (Heq : App.update_metrics now r h
                  = drop 1 h ++ [Runs.entry_of (now, r)]).
    { rewrite update_metrics_last_n. unfold App.last_n.
      rewrite length_app, Hlen. simpl length.
      change (1000 + 1 - 1000)%nat with 1%nat.
      apply drop_app_le. lia. }
    split; [exact Heq|].
    rewrite !total_optimizations_length, Heq, length_app, length_drop. simpl. lia.
  - intros calls Hlen. rewrite Hall. split.
    + rewrite length_last_n, length_map. lia.
    + unfold App.last_n. rewrite length_map, Hlen. reflexivity.
Qed.

(** One more count on a history of one entry. *)
Lemma metrics_history_bounded_fifo_witness :
  let h := [Runs.entry_of (0, Runs.sample_result)] in
  (length h < 1000)%nat
  /\ App.total_optimizations
       (App.get_real_time_analytics (pandas := Runs.unrounded)
          (App.update_metrics 1 Runs.sample_result h))
     = App.total_optimizations
         (App.get_real_time_analytics (pandas := Runs.unrounded) h) + 1.
Proof.
  intros h.
  assert (Hlen : (length h < 1000)%nat) by (simpl; lia).
  split; [exact Hlen|].
  exact (proj2 (proj1 (proj2 (proj2
                  (metrics_history_bounded_fifo (pandas := Runs.unrounded))))
                  1 Runs.sample_result h Hlen)).
Defined.

(** ** Broadcasting *)

Section BroadcastFacts.

Context {handle message : Type} `{EqDecision handle}.
Variable fails : handle -> bool.

Implicit Types (c : handle) (l p : list handle) (msg : message).

Local Abbreviation ok := (fun c => negb (fails c)).

Lemma remove_first_app p c l :
  ~ In c p -> Api.remove_first c (p ++ c :: l) = p ++ l.
Proof.
  induction p as [|x p IH]; intros Hnot; simpl.
  - destruct (decide (c = c)); [reflexivity | contradiction].
  - destruct (decide (x = c)) as [->|_]; [exfalso; apply Hnot; now left|].
    f_equal. apply IH. intros Hin. apply Hnot. now right.
Qed.

Lemma length_remove_first c l :
  (length (Api.remove_first c l) <= length l)%nat.
Proof.
  induction l as [|x l IH]; simpl; [lia|].
  destruct (decide (x = c)); simpl; lia.
Qed.

(** The first loop of [broadcast_message] delivers to the connections
    whose send succeeds and collects the others, both in order. *)
Lemma send_loop_filter msg l sent disconnected :
  Api.send_loop fails msg l sent disconnected
  = (sent ++ map (fun c => (c, msg)) (List.filter ok l),
     disconnected ++ List.filter fails l).
Proof.
  revert sent disconnected.
  induction l as [|c l IH]; intros sent disconnected; simpl.
  - now rewrite !app_nil_r.
  - destruct (fails c); simpl; rewrite IH, <- app_assoc; reflexivity.
Qed.

(** The second loop removes exactly the collected connections. *)
Lemma remove_loop_filter p l :
  Forall (fun c => fails c = false) p ->
  Api.remove_loop (List.filter fails l) (p ++ l) = p ++ List.filter ok l.
Proof.
  revert p. induction l as [|c l IH]; intros p Hp; simpl; [reflexivity|].
  destruct (fails c) eqn:Hc; simpl.
  - rewrite bool_decide_eq_true_2
      by (apply list_elem_of_In, in_or_app; right; now left).
    rewrite remove_first_app; [now apply IH|].
    intros Hin. rewrite Forall_forall in Hp.
    apply list_elem_of_In, Hp in Hin. congruence.
  - change (p ++ c :: l) with (p ++ [c] ++ l). rewrite app_assoc.
    rewrite IH; [now rewrite <- app_assoc|].
    apply Forall_app. split; [exact Hp | now repeat constructor].
Qed.

(** [broadcast_message] sends to every connection once, delivers to those
    whose send succeeds, and removes the others and only them. *)
Lemma broadcast_message_filter msg l :
  Api.broadcast_message fails msg l
  = (List.filter ok l, map (fun c => (c, msg)) (List.filter ok l)).
Proof.
  unfold Api.broadcast_message. destruct l as [|c l]; [reflexivity|].
  rewrite send_loop_filter.
  change ([] ++ List.filter fails (c :: l)) with (List.filter fails (c :: l)).
  cbv beta iota. f_equal.
  exact (remove_loop_filter [] (c :: l) (List.Forall_nil _)).
Qed.

(** The loop of [ConnectionManager.broadcast] ends within the fuel
    [broadcast] gives it. *)
Lemma broadcast_loop_terminates (m : App.message) fuel i l sent :
  (length l - i < fuel)%nat ->
  is_Some (App.broadcast_loop fails fuel m i l sent).
Proof.
  revert i l sent. induction fuel as [|fuel IH]; intros i l sent Hlt; [lia|].
  simpl. destruct (l !! i) as [c|] eqn:Hc; [|eexists; reflexivity].
  apply lookup_lt_Some in Hc.
  destruct (fails c); apply IH.
  - pose proof (length_remove_first c l). lia.
  - lia.
Qed.

Lemma broadcast_terminates (m : App.message) l :
  is_Some (App.broadcast fails m l).
Proof. apply broadcast_loop_terminates. lia. Qed.

Lemma broadcast_loop_S (m : App.message) fuel i l sent :
  App.broadcast_loop fails (S fuel) m i l sent =
    match l !! i with
    | None => Some (l, sent)
    | Some connection =>
        if fails connection
        then App.broadcast_loop fails fuel m (S i)
               (Api.remove_first connection l) sent
        else App.broadcast_loop fails fuel m (S i) l
               (sent ++ [(connection, m)])
    end.
Proof. reflexivity. Qed.

(** The loop passes over a stretch of connections whose sends succeed
    one by one, delivering to each. *)
Lemma broadcast_loop_prefix (m : App.message) p2 :
  Forall (fun c => fails c = false) p2 ->
  forall fuel p1 rest sent,
    App.broadcast_loop fails (length p2 + fuel) m (length p1)
      (p1 ++ p2 ++ rest) sent
    = App.broadcast_loop fails fuel m (length p1 + length p2)
        (p1 ++ p2 ++ rest) (sent ++ map (fun c => (c, m)) p2).
Proof.
  induction 1 as [|c p2 Hc _ IH]; intros fuel p1 rest sent.
  - simpl. now rewrite Nat.add_0_r, app_nil_r.
  - cbn [length Nat.add]. rewrite broadcast_loop_S.
    change (p1 ++ (c :: p2) ++ rest) with (p1 ++ c :: p2 ++ rest).
    rewrite list_lookup_middle by reflexivity. rewrite Hc.
    replace (p1 ++ c :: p2 ++ rest) with ((p1 ++ [c]) ++ p2 ++ rest)
      by now rewrite <- app_assoc.
    replace (S (length p1)) with (length (p1 ++ [c]))
      by (rewrite length_app; simpl; lia).
    rewrite IH. rewrite length_app. cbn [length map].
    rewrite <- (app_assoc sent). f_equal. lia.
Qed.

(** What [ConnectionManager.broadcast] does around a failed send: the
    failing connection [k] is removed, and the connection [n] that follows
    it is passed over; it is neither sent the message nor, should its own
    send fail too, removed. *)
Lemma broadcast_passes_over_next (m : App.message) p k n q :
  Forall (fun c => fails c = false) p ->
  fails k = true ->
  Forall (fun c => fails c = false) q ->
  App.broadcast fails m (p ++ k :: n :: q)
  = Some (p ++ n :: q, map (fun c => (c, m)) (p ++ q)).
Proof.
  intros Hp Hk Hq. unfold App.broadcast.
  assert (Hnotin : ~ In k p).
  { intros Hin. rewrite Forall_forall in Hp.
    apply list_elem_of_In, Hp in Hin. congruence. }
  replace (S (length (p ++ k :: n :: q)))
    with (length p + S (length q + 2))%nat
    by (rewrite length_app; simpl; lia).
  rewrite (broadcast_loop_prefix m p Hp _ [] (k :: n :: q) []).
  cbn [length Nat.add app].
  rewrite broadcast_loop_S.
  rewrite list_lookup_middle by reflexivity. rewrite Hk.
  rewrite remove_first_app by exact Hnotin.
  replace (p ++ n :: q) with ((p ++ [n]) ++ q ++ [])
    by now rewrite app_nil_r, <- app_assoc.
  replace (S (length p)) with (length (p ++ [n]))
    by (rewrite length_app; simpl; lia).
  rewrite (broadcast_loop_prefix m q Hq 2%nat (p ++ [n]) []).
  rewrite broadcast_loop_S.
  rewrite lookup_ge_None_2 by (rewrite !length_app; simpl; lia).
  now rewrite map_app.
Qed.

End BroadcastFacts.

(** With exactly one failing subscriber, [broadcast_message] of
    [api/optimize.py] removes that subscriber alone and delivers to all the
    others. *)
Lemma broadcast_message_one_failure {message : Type} (msg : message)
    (k : nat) (l : list nat) :
  Api.broadcast_message (fun c => bool_decide (c = k)) msg l
  = (List.filter (fun c => negb (bool_decide (c = k))) l,
     map (fun c => (c, msg))
       (List.filter (fun c => negb (bool_decide (c = k))) l)).
Proof. apply broadcast_message_filter. Qed.

(** C1, failing input of [ConnectionManager.broadcast] in [app.py]: three
    subscribers 0, 1, 2 of which only 0 fails.  Subscriber 0 is removed and
    the two others stay registered, but only subscriber 2 receives the
    message: removing 0 from the list under iteration moves 1 into the slot
    the iterator has already passed.  [broadcast_message] of
    [api/optimize.py], which removes after the loop, delivers to both. *)
Theorem broadcast_skips_subscriber_after_failure (m : App.message) :
  let fails := fun c : nat => bool_decide (c = 0%nat) in
  App.broadcast fails m [0; 1; 2]%nat = Some ([1; 2]%nat, [(2%nat, m)])
  /\ Api.broadcast_message fails m [0; 1; 2]%nat
     = ([1; 2]%nat, [(1%nat, m); (2%nat, m)]).
Proof. split; reflexivity. Qed.

(** ** Redundant-phrase stripping *)

Section Trimming.

Implicit Types (s old phrase : str) (phrases : list str).

Lemma replace_absent old new s :
  old <> [] -> contains old s = false -> replace old new s = s.
Proof.
  destruct old as [|a old]; [contradiction|]. intros _.
  unfold replace. induction s as [|c s IH]; [reflexivity|].
  intros H. change (contains (a :: old) (c :: s))
    with (startswith (a :: old) (c :: s) || contains (a :: old) s) in H.
  apply orb_false_iff in H as [Hsw Hrest].
  rewrite replace_from_nomatch by exact Hsw. f_equal. now apply IH.
Qed.

(** Removing a phrase never lengthens the text, and shortens it when the
    phrase occurs. *)
Lemma remove_phrase_length phrase s :
  phrase <> [] ->
  (length (replace phrase [] s) <= length s)%nat
  /\ (contains phrase s = true ->
      (length (replace phrase [] s) < length s)%nat).
Proof.
  destruct phrase as [|a phrase]; [contradiction|]. intros _.
  unfold replace.
  apply (replace_from_ind
           (fun s r => (length r <= length s)%nat
                       /\ (contains (a :: phrase) s = true ->
                           (length r < length s)%nat))).
  - split; [lia | discriminate].
  - intros s0 r [Hle _]. change ([] ++ r) with r.
    rewrite length_app. simpl length. split; intros; lia.
  - intros c s0 r Hsw [Hle Hlt]. simpl length. split; [lia|].
    change (contains (a :: phrase) (c :: s0))
      with (startswith (a :: phrase) (c :: s0) || contains (a :: phrase) s0).
    rewrite Hsw. simpl orb. intros Hin. specialize (Hlt Hin). lia.
Qed.

Lemma strip_phrases_absent phrases s :
  Forall (fun phrase => phrase <> [] /\ contains phrase s = false) phrases ->
  App.strip_phrases phrases s = s.
Proof.
  unfold App.strip_phrases.
  induction 1 as [|phrase phrases [Hne Habs] _ IH]; [reflexivity|].
  simpl. now rewrite replace_absent.
Qed.

Lemma strip_phrases_length phrases s :
  Forall (fun phrase => phrase <> []) phrases ->
  (length (App.strip_phrases phrases s) <= length s)%nat
  /\ (Exists (fun phrase => contains phrase s = true) phrases ->
      (length (App.strip_phrases phrases s) < length s)%nat).
Proof.
  unfold App.strip_phrases. intros Hne. revert s.
  induction Hne as [|phrase phrases Hp _ IH]; intros s.
  - simpl. split; [lia|]. intros H. inversion H.
  - simpl fold_left.
    destruct (remove_phrase_length phrase s Hp) as [Hle Hlt].
    destruct (IH (replace phrase [] s)) as [IHle _].
    split; [lia|]. intros Hex.
    destruct (contains phrase s) eqn:Hc.
    + specialize (Hlt eq_refl). lia.
    + rewrite (replace_absent _ _ _ Hp Hc).
      destruct (IH s) as [_ IHlt]. apply IHlt.
      inversion Hex as [? ? Hhere|? ? Hlater]; subst; [congruence | exact Hlater].
Qed.

(** Splitting and joining with single spaces never lengthens the text. *)
Lemma join_cons_char c w ws :
  join (lit " ") ((c :: w) :: ws) = c :: join (lit " ") (w :: ws).
Proof. destruct ws; reflexivity. Qed.

Lemma length_join_split_strong s :
  (length (join (lit " ") (split s)) <= length s)%nat
  /\ (starts_word s = false -> split s <> [] ->
      (S (length (join (lit " ") (split s))) <= length s)%nat).
Proof.
  induction s as [|c s [IH1 IH2]]; [split; [simpl; lia | contradiction]|].
  destruct (isspace c) eqn:Hc.
  - rewrite (split_space _ _ Hc). cbn [length]. split; intros; lia.
  - split; [|simpl; rewrite Hc; discriminate].
    rewrite (split_nonspace _ _ Hc).
    destruct (starts_word s) eqn:Hs.
    + destruct (split s) as [|w ws] eqn:Hw; [cbn [join length]; lia|].
      rewrite join_cons_char. cbn [length] in *. lia.
    + destruct (split s) as [|w ws] eqn:Hw; [cbn [join length]; lia|].
      specialize (IH2 eq_refl ltac:(discriminate)).
      change (join (lit " ") ([c] :: w :: ws))
        with (c :: " "%char :: join (lit " ") (w :: ws)).
      cbn [length] in *. lia.
Qed.

Lemma length_join_split s :
  (length (join (lit " ") (split s)) <= length s)%nat.
Proof. apply length_join_split_strong. Qed.

Lemma redundant_phrases_nonempty :
  Forall (fun phrase => phrase <> []) App.redundant_phrases.
Proof. repeat constructor; discriminate. Qed.

(** A text that is already collapsed and contains none of the phrases is
    left as it is. *)
Lemma trimming_fixed s :
  forallb (fun phrase => negb (contains phrase (join (lit " ") (split s))))
    App.redundant_phrases = true ->
  App._context_aware_trimming (join (lit " ") (split s))
  = join (lit " ") (split s).
Proof.
  intros Habs. unfold App._context_aware_trimming.
  rewrite strip_phrases_absent; [now rewrite split_join_split|].
  rewrite forallb_forall in Habs.
  pose proof redundant_phrases_nonempty as Hne.
  rewrite Forall_forall in Hne. apply Forall_forall.
  intros phrase Hin. apply list_elem_of_In in Hin.
  split; [apply Hne; now apply list_elem_of_In|].
  apply negb_true_iff. now apply Habs.
Qed.

(** A text that contains one of the phrases is shortened. *)
Lemma trimming_shortens s :
  forallb (fun phrase => negb (contains phrase s)) App.redundant_phrases
  = false ->
  (length (App._context_aware_trimming s) < length s)%nat.
Proof.
  intros Hsome. unfold App._context_aware_trimming.
  pose proof (length_join_split (App.strip_phrases App.redundant_phrases s)).
  destruct (strip_phrases_length App.redundant_phrases s
              redundant_phrases_nonempty) as [_ Hlt].
  enough (Exists (fun phrase => contains phrase s = true)
            App.redundant_phrases) as Hex by (specialize (Hlt Hex); lia).
  apply List.Exists_exists.
  apply not_true_iff_false in Hsome.
  destruct (List.existsb (fun phrase => contains phrase s)
              App.redundant_phrases) eqn:Hex.
  - apply existsb_exists in Hex as (phrase & Hin & Hc). eauto.
  - exfalso. apply Hsome. apply forallb_forall. intros phrase Hin.
    apply negb_true_iff.
    destruct (contains phrase s) eqn:Hc; [|reflexivity].
    assert (List.existsb (fun phrase => contains phrase s)
              App.redundant_phrases = true)
      by (apply existsb_exists; eauto).
    congruence.
Qed.

End Trimming.

(** C9, counterexample: the whitespace collapse that ends the first
    application can complete a phrase that the removal then finds the
    second time (["i  need to rest"], two spaces after ["i"]), and so can
    the removal of an inner occurrence (["pleapleasese"]).  The same holds
    of the phrase loop of [simple_app.py]. *)
Lemma trimming_twice_differs_from_once :
  (App._context_aware_trimming (lit "i  need to rest") = lit "i need to rest"
   /\ App._context_aware_trimming
        (App._context_aware_trimming (lit "i  need to rest"))
      = lit "rest")
  /\ (App._context_aware_trimming (lit "pleapleasese help")
      = lit "please help"
      /\ App._context_aware_trimming
           (App._context_aware_trimming (lit "pleapleasese help"))
         = lit "help")
  /\ (SimpleApp.remove_redundant (lit "pleapleasese help")
      = lit "please help"
      /\ SimpleApp.remove_redundant
           (SimpleApp.remove_redundant (lit "pleapleasese help"))
         = lit "help").
Proof. repeat split; vm_compute; reflexivity. Qed.

(** C9, amended. Applying the redundant-phrase stripping of [app.py] twice
    gives the same text as applying it once exactly when the text it gives
    the first time contains none of the listed phrases.  In every case the
    transform never lengthens a text, and a second application that changes
    the text makes it strictly shorter, so that repeated application comes
    to a fixed text. *)
Theorem trimming_idempotent_iff_clean (prompt : str) :
  let once := App._context_aware_trimming prompt in
  let twice := App._context_aware_trimming once in
  (twice = once
   <-> forallb (fun phrase => negb (contains phrase once))
         App.redundant_phrases = true)
  /\ (length twice <= length once)%nat
  /\ (twice <> once -> (length twice < length once)%nat).
Proof.
  intros once twice.
  assert (Hiff : twice = once
                 <-> forallb (fun phrase => negb (contains phrase once))
                       App.redundant_phrases = true).
  { split.
    - intros Heq.
      destruct (forallb _ App.redundant_phrases) eqn:Hclean; [reflexivity|].
      apply trimming_shortens in Hclean. fold twice in Hclean.
      rewrite Heq in Hclean. lia.
    - intros Hclean. apply trimming_fixed. exact Hclean. }
  split; [exact Hiff|].
  assert (Hlt : twice <> once -> (length twice < length once)%nat).
  { intros Hne.
    destruct (forallb (fun phrase => negb (contains phrase once))
                App.redundant_phrases) eqn:Hclean.
    - exfalso. apply Hne. now apply Hiff.
    - now apply trimming_shortens. }
  split; [|exact Hlt].
  destruct (decide (twice = once)) as [->|Hne]; [lia|].
  specialize (Hlt Hne). lia.
Qed.

(** A prompt whose trimmed text contains none of the phrases. *)
Lemma trimming_idempotent_iff_clean_witness :
  let once := App._context_aware_trimming (lit "could you please help me") in
  forallb (fun phrase => negb (contains phrase once)) App.redundant_phrases
  = true
  /\ App._context_aware_trimming once = once.
Proof.
  intros once.
  assert (Hclean : forallb (fun phrase => negb (contains phrase once))
                     App.redundant_phrases = true) by reflexivity.
  split; [exact Hclean|].
  exact (proj2 (proj1 (trimming_idempotent_iff_clean
                         (lit "could you please help me"))) Hclean).
Defined.

(** ** The endpoint of [app.py] always answers *)

Lemma app_optimize_prompt_total {handle : Type} `{EqDecision handle}
    (fails : handle -> bool)
    (predict : str -> str -> Q -> Q -> res (Q * Q * Q))
    (encode : str -> res (list Z)) (now : Z) (request : OptimizationRequest)
    (st : App.state) :
  is_Some (App.optimize_prompt fails predict encode now request st).
Proof.
  unfold App.optimize_prompt.
  destruct (App.build_result predict encode request) as [result|e];
    [|eexists; reflexivity].
  destruct (broadcast_terminates fails (App.OptimizationCompleted result)
              (App.active_connections st)) as [[connections sent] Hb].
  rewrite Hb. eexists. reflexivity.
Qed.

(** ** The three transforms behind the hint ["auto"] *)

Section AutoTransforms.

Implicit Types (s old new prompt : str).

Lemma lower_app s t : lower (s ++ t) = lower s ++ lower t.
Proof. apply map_app. Qed.

(** Replacing in lower-case text by lower-case text gives lower-case
    text. *)
Lemma replace_lower old new s :
  old <> [] -> lower new = new -> lower s = s ->
  lower (replace old new s) = replace old new s.
Proof.
  destruct old as [|a old]; [contradiction|]. intros _ Hnew.
  unfold replace.
  apply (replace_from_ind (fun s r => lower s = s -> lower r = r)).
  - reflexivity.
  - intros s0 r IH Hs. rewrite lower_app, Hnew. f_equal. apply IH.
    rewrite lower_app in Hs. apply app_inj_1 in Hs as [_ Hs]; [exact Hs|].
    unfold lower. apply length_map.
  - intros c s0 r _ IH Hs. cbn [lower map] in *. injection Hs as Hc Hs.
    rewrite Hc. f_equal. now apply IH.
Qed.

Lemma replace_all_lower table s :
  forallb (fun p => match fst p with [] => false | _ => true end
                    && bool_decide (lower (snd p) = snd p)) table = true ->
  lower s = s -> lower (replace_all table s) = replace_all table s.
Proof.
  unfold replace_all. revert s.
  induction table as [|[old new] table IH]; intros s Ht Hs; [exact Hs|].
  simpl in Ht. apply andb_prop in Ht as [Hp Ht].
  apply andb_prop in Hp as [Hold Hnew].
  apply bool_decide_eq_true in Hnew.
  simpl fold_left. apply IH; [exact Ht|].
  apply replace_lower; [|exact Hnew | exact Hs].
  destruct old; [discriminate | discriminate].
Qed.

(** Replacing phrases that do not occur changes nothing. *)
Lemma replace_all_absent table s :
  forallb (fun p => negb (contains (fst p) s)) table = true ->
  Forall (fun p => fst p <> []) table ->
  replace_all table s = s.
Proof.
  unfold replace_all. intros Habs Hne.
  induction Hne as [|[old new] table Hold _ IH]; [reflexivity|].
  cbn [forallb fst] in Habs. apply andb_prop in Habs as [Hhere Hrest].
  apply negb_true_iff in Hhere.
  cbn [fold_left fst snd]. rewrite replace_absent by assumption.
  now apply IH.
Qed.

End AutoTransforms.

(** C6, counterexample: "Hello World" names no entry of the buzzword list,
    so its score is 0 and the hint ["auto"] takes the branch of the lowest
    scores.  No phrase of the replacement table occurs in it, so replacing
    the phrases of the table would leave it as it is; the branch returns
    "hello world". *)
Lemma auto_low_complexity_lower_cases :
  let prompt := lit "Hello World" in
  let ins :=
    {| App.predicted_cost_reduction := 0.2; App.predicted_quality := 0.9;
       App.confidence := 0.5;
       App.complexity_score := App._calculate_complexity prompt |} in
  (App.complexity_score ins <= 0.4)%Q
  /\ forallb (fun p => negb (contains (fst p) prompt))
       App.semantic_replacements = true
  /\ replace_all App.semantic_replacements prompt = prompt
  /\ App.apply_strategy (App.select_strategy (lit "auto") ins) prompt ins
     = Ok (lit "hello world")
  /\ lit "hello world" <> prompt.
Proof.
  intros prompt ins.
  split; [vm_compute; discriminate|].
  split; [vm_compute; reflexivity|].
  split; [vm_compute; reflexivity|].
  split; [vm_compute; reflexivity | discriminate].
Qed.

(** C6, amended. Under the strategy hint ["auto"] the transform applied to
    the prompt is fixed by the complexity score alone.  Above 0.7 it is the
    entropy-based pruning.  Above 0.4 and at most 0.7 it is the entropy
    pruning, then the lower-casing of the text with the replacement of the
    eight verbose phrases in table order, then the stripping of the seven
    redundant phrases with the white space collapsed.  At most 0.4 it is
    the lower-casing of the whole prompt with the replacement of the
    verbose phrases: the text returned is always in lower case, and it is
    the lower-cased prompt when no phrase of the table occurs in that.  The
    dispatch always returns a text; a result of the endpoint carries the
    score of [_calculate_complexity] on the prompt and the text of the
    branch of that score. *)
Theorem auto_strategy_by_complexity :
  let verbose_phrases :=
    map (fun p => (lit (fst p), lit (snd p)))
      [("create a", "build"); ("implement a", "code"); ("develop a", "make");
       ("construct a", "build"); ("generate a", "create");
       ("produce a", "make"); ("design a", "build");
       ("establish a", "create")] in
  let redundant_phrases :=
    map lit
      ["please"; "kindly"; "i would like to"; "i need to"; "could you";
       "would you"; "i want to"] in
  let prune prompt :=
    join (lit " ") (List.filter (entropy_keep (split prompt)) (split prompt)) in
  let compress prompt := replace_all verbose_phrases (lower prompt) in
  let trim prompt :=
    join (lit " ")
      (split (fold_left (fun text phrase => replace phrase [] text)
                redundant_phrases prompt)) in
  (forall (ins : App.ml_insights) (prompt : str),
      let complexity := App.complexity_score ins in
      exists text,
        App.apply_strategy (App.select_strategy (lit "auto") ins) prompt ins
        = Ok text
        /\ ((0.7 < complexity)%Q -> text = prune prompt)
        /\ ((0.4 < complexity)%Q -> (complexity <= 0.7)%Q ->
            text = trim (compress (prune prompt)))
        /\ ((complexity <= 0.4)%Q -> text = compress prompt))
  /\ (forall prompt : str,
        lower (compress prompt) = compress prompt
        /\ (forallb (fun p => negb (contains (fst p) (lower prompt)))
              verbose_phrases = true ->
            compress prompt = lower prompt))
  /\ (forall (predict : str -> str -> Q -> Q -> res (Q * Q * Q))
             (encode : str -> res (list Z)) (request : OptimizationRequest),
        optimization_strategy request = lit "auto" ->
        match App.build_result predict encode request with
        | Ok r =>
            App.complexity_score (App.insights r)
            = App._calculate_complexity (prompt request)
            /\ App.apply_strategy
                 (App.select_strategy (lit "auto") (App.insights r))
                 (prompt request) (App.insights r)
               = Ok (App.optimized_prompt r)
        | Raise _ => True
        end).
Proof.
  intros verbose_phrases redundant_phrases prune compress trim.
  split; [|split].
  - intros ins prompt complexity. eexists.
    split; [apply auto_strategy_run|]. fold complexity.
    destruct (App.Qgtb complexity 0.7) eqn:Hhigh.
    + apply Qgtb_true in Hhigh.
      split; [|split]; intros; first [reflexivity | exfalso; lra].
    + apply Qgtb_false in Hhigh.
      destruct (App.Qgtb complexity 0.4) eqn:Hmid.
      * apply Qgtb_true in Hmid.
        split; [|split]; intros; first [reflexivity | exfalso; lra].
      * apply Qgtb_false in Hmid.
        split; [|split]; intros; first [reflexivity | exfalso; lra].
  - intros prompt. split.
    + apply replace_all_lower; [vm_compute; reflexivity|].
      apply lower_idempotent.
    + intros Habsent. apply replace_all_absent; [exact Habsent|].
      apply (bool_decide_unpack
               (Forall (fun p : str * str => fst p <> []) verbose_phrases)).
      vm_compute. exact I.
  - intros predict encode request Hauto.
    unfold App.build_result, App.predict_optimization. rewrite Hauto.
    destruct (predict (prompt request) (context request) (budget request)
                (quality_threshold request)) as [[[cost quality] conf]|e];
      [|exact I].
    rewrite res_bind_Ok. cbv beta iota.
    unfold mret at 1, res_ret at 1.
    rewrite res_bind_Ok, auto_strategy_run, res_bind_Ok.
    destruct (encode (prompt request)) as [original|e]; [|exact I].
    rewrite res_bind_Ok.
    match goal with
    | |- context [encode ?text] => destruct (encode text) as [optimized|e]
    end; [|exact I].
    rewrite res_bind_Ok.
    match goal with
    | |- context [truediv ?a ?b] => destruct (truediv a b) as [ratio|e]
    end; [|exact I].
    rewrite res_bind_Ok. unfold mret, res_ret.
    cbn [App.insights App.optimized_prompt App.complexity_score].
    split; [reflexivity | apply auto_strategy_run].
Qed.

(** One prompt for each branch, a prompt without any phrase of the table,
    and a run of the endpoint with a predictor that returns three fixed
    numbers and a tokenizer that gives one token for each word. *)
Lemma auto_strategy_by_complexity_witness :
  let ins prompt :=
    {| App.predicted_cost_reduction := 0.2; App.predicted_quality := 0.9;
       App.confidence := 0.5;
       App.complexity_score := App._calculate_complexity prompt |} in
  let run prompt :=
    App.apply_strategy (App.select_strategy (lit "auto") (ins prompt))
      prompt (ins prompt) in
  let high :=
    lit "use machine learning and a neural network for deep learning with an algorithm" in
  let middle :=
    lit "please create a distributed algorithm for optimization please create a Map" in
  let low :=
    lit "Please, in order to build a chatbot, I would like to create a React component" in
  let compressed :=
    lit "please, in order to build a chatbot, i would like to build react component" in
  let predict := fun _ _ _ _ : _ => Ok (0.2, 0.9, 0.5)%Q in
  let encode := fun text : str =>
    Ok (map (fun word : str => Z.of_nat (length word)) (split text)) in
  let request :=
    {| prompt := low; context := lit "general"; budget := 0.05;
       quality_threshold := 0.95; optimization_strategy := lit "auto" |} in
  ((0.7 < App.complexity_score (ins high))%Q
   /\ run high = Ok (lit "machine learning network learning algorithm"))
  /\ ((0.4 < App.complexity_score (ins middle))%Q
      /\ (App.complexity_score (ins middle) <= 0.7)%Q
      /\ run middle = Ok (lit "build distributed algorithm optimization build"))
  /\ ((App.complexity_score (ins low) <= 0.4)%Q
      /\ run low = Ok compressed)
  /\ (forallb (fun p => negb (contains (fst p) (lower (lit "Hello World"))))
        App.semantic_replacements = true
      /\ App._semantic_compression (lit "Hello World") = lit "hello world")
  /\ (optimization_strategy request = lit "auto"
      /\ exists r,
           App.build_result predict encode request = Ok r
           /\ App.complexity_score (App.insights r) = App._calculate_complexity low
           /\ App.optimized_prompt r = compressed).
Proof.
  intros ins run high middle low compressed predict encode request.
  pose proof auto_strategy_by_complexity as Hthm. cbv zeta in Hthm.
  destruct Hthm as (Hbranch & Hlower & Hendpoint).
  assert (Hhigh : (0.7 < App.complexity_score (ins high))%Q)
    by (vm_compute; reflexivity).
  assert (Hmid : (0.4 < App.complexity_score (ins middle))%Q)
    by (vm_compute; reflexivity).
  assert (Hmid' : (App.complexity_score (ins middle) <= 0.7)%Q)
    by (vm_compute; discriminate).
  assert (Hlow : (App.complexity_score (ins low) <= 0.4)%Q)
    by (vm_compute; discriminate).
  assert (Habsent :
            forallb (fun p => negb (contains (fst p) (lower (lit "Hello World"))))
              App.semantic_replacements = true)
    by (vm_compute; reflexivity).
  split; [|split; [|split; [|split]]].
  - split; [exact Hhigh|].
    destruct (Hbranch (ins high) high) as (text & Hrun & Htext & _ & _).
    etransitivity; [exact Hrun|]. rewrite (Htext Hhigh).
    vm_compute. reflexivity.
  - split; [exact Hmid|]. split; [exact Hmid'|].
    destruct (Hbranch (ins middle) middle) as (text & Hrun & _ & Htext & _).
    etransitivity; [exact Hrun|]. rewrite (Htext Hmid Hmid').
    vm_compute. reflexivity.
  - split; [exact Hlow|].
    destruct (Hbranch (ins low) low) as (text & Hrun & _ & _ & Htext).
    etransitivity; [exact Hrun|]. rewrite (Htext Hlow).
    vm_compute. reflexivity.
  - split; [exact Habsent|].
    etransitivity; [exact (proj2 (Hlower (lit "Hello World")) Habsent)|].
    vm_compute. reflexivity.
  - split; [reflexivity|].
    pose proof (Hendpoint predict encode request eq_refl) as Hrun.
    destruct (App.build_result predict encode request) as [r|e] eqn:Hbuild;
      [|vm_compute in Hbuild; discriminate].
    destruct Hrun as [Hscore Htext].
    exists r. split; [reflexivity|]. split; [exact Hscore|].
    destruct (Hbranch (App.insights r) low) as (text & Hrun & _ & _ & Hcase).
    change (prompt request) with low in Htext.
    rewrite Htext in Hrun. injection Hrun as <-.
    rewrite Hcase; [vm_compute; reflexivity|].
    change (prompt request) with low in Hscore. rewrite Hscore.
    vm_compute. discriminate.
Defined.

(** * Further properties of the code *)

(** ** Token counts of the other transforms *)

Section MoreTokens.

Implicit Types (s prompt phrase : str) (phrases : list str).

Lemma isspace_lower_char c : isspace (lower_char c) = isspace c.
Proof. destruct c as [[] [] [] [] [] [] [] []]; vm_compute; reflexivity. Qed.

Lemma cnt_lower inside s : cnt inside (lower s) = cnt inside s.
Proof.
  revert inside. induction s as [|c s IH]; intros inside; [reflexivity|].
  cbn [lower map cnt]. rewrite isspace_lower_char.
  fold (lower s). now rewrite !IH.
Qed.

Lemma strip_phrases_cnt phrases s inside :
  forallb (fun phrase => shrinks (phrase, [])) phrases = true ->
  (cnt inside (App.strip_phrases phrases s) <= cnt inside s)%nat.
Proof.
  unfold App.strip_phrases. revert s.
  induction phrases as [|phrase phrases IH]; intros s H; simpl; [lia|].
  apply andb_prop in H as [Hp Ht].
  etransitivity; [apply IH, Ht|]. now apply replace_cnt.
Qed.

Lemma semantic_compression_tokens prompt :
  (length (split (App._semantic_compression prompt))
   <= length (split prompt))%nat.
Proof.
  unfold App._semantic_compression. rewrite !length_split.
  etransitivity; [apply replace_all_cnt; vm_compute; reflexivity|].
  now rewrite cnt_lower.
Qed.

Lemma context_aware_trimming_tokens prompt :
  (length (split (App._context_aware_trimming prompt))
   <= length (split prompt))%nat.
Proof.
  unfold App._context_aware_trimming.
  rewrite split_join_split, !length_split.
  apply strip_phrases_cnt. vm_compute. reflexivity.
Qed.

Lemma entropy_pruned_tokens prompt :
  (length (split (entropy_pruned prompt)) <= length (split prompt))%nat.
Proof.
  unfold entropy_pruned. rewrite split_join_filter. apply length_filter_le.
Qed.

End MoreTokens.

(** X1. Every strategy of the table of [AdvancedOptimizationStrategies]
    returns a text and never raises, whatever the prompt and the insights,
    and the text has at most as many whitespace-separated tokens as the
    prompt. *)
Theorem every_strategy_returns_no_more_tokens
    (strategy prompt : str) (ins : App.ml_insights) :
  In strategy (map fst App.strategies) ->
  exists text,
    App.apply_strategy strategy prompt ins = Ok text
    /\ (length (split text) <= length (split prompt))%nat.
Proof.
  intros Hin. cbn [map fst App.strategies In] in Hin.
  destruct Hin as [<-|[<-|[<-|[<-|[<-|[]]]]]].
  - change (App.apply_strategy (lit "entropy_optimization") prompt ins)
      with (App._entropy_optimization prompt).
    rewrite entropy_optimization_filter. eexists. split; [reflexivity|].
    apply entropy_pruned_tokens.
  - eexists. split; [reflexivity|]. apply semantic_compression_tokens.
  - eexists. split; [reflexivity|]. apply context_aware_trimming_tokens.
  - change (App.apply_strategy (lit "ml_guided_optimization") prompt ins)
      with (App._ml_guided_optimization prompt ins).
    unfold App._ml_guided_optimization.
    destruct (App.Qgtb (App.complexity_score ins) 0.7).
    + rewrite entropy_optimization_filter. eexists. split; [reflexivity|].
      apply entropy_pruned_tokens.
    + destruct (App.Qgtb (App.complexity_score ins) 0.4);
        eexists; (split; [reflexivity|]);
        [apply semantic_compression_tokens | apply context_aware_trimming_tokens].
  - change (App.apply_strategy (lit "adaptive_compression") prompt ins)
      with (App._adaptive_compression prompt).
    unfold App._adaptive_compression. rewrite entropy_optimization_filter.
    eexists. split; [reflexivity|].
    etransitivity; [apply context_aware_trimming_tokens|].
    etransitivity; [apply semantic_compression_tokens|].
    apply entropy_pruned_tokens.
Qed.

(** The adaptive composition on a prompt of ten words. *)
Lemma every_strategy_returns_no_more_tokens_witness :
  let prompt := lit "Please create a a b c d e f dashboard" in
  let ins :=
    {| App.predicted_cost_reduction := 0.2; App.predicted_quality := 0.9;
       App.confidence := 0.5; App.complexity_score := 0 |} in
  In (lit "adaptive_compression") (map fst App.strategies)
  /\ exists text,
       App.apply_strategy (lit "adaptive_compression") prompt ins = Ok text
       /\ (length (split text) <= length (split prompt))%nat.
Proof.
  intros prompt ins.
  assert (Hin : In (lit "adaptive_compression") (map fst App.strategies))
    by (cbn; tauto).
  split; [exact Hin|].
  exact (every_strategy_returns_no_more_tokens _ prompt ins Hin).
Defined.

(** ** The metrics of the three word-counting services *)

Section MoreMetrics.

Implicit Types (prompt : str).

Lemma start_optimize_text_tokens prompt :
  (length (split (StartFastapi.optimize_text prompt))
   <= length (split prompt))%nat.
Proof.
  unfold StartFastapi.optimize_text.
  rewrite split_join_split, length_split.
  etransitivity; [apply replace_all_cnt; vm_compute; reflexivity|].
  rewrite <- length_split. unfold StartFastapi.remove_fillers.
  rewrite split_join_filter. apply length_filter_le.
Qed.

Lemma remove_redundant_cnt prompt :
  (cnt false (SimpleApp.remove_redundant prompt) <= cnt false prompt)%nat.
Proof.
  unfold SimpleApp.remove_redundant.
  assert (Hall : forallb (fun phrase => shrinks (phrase, []))
                   SimpleApp.redundant_phrases = true)
    by (vm_compute; reflexivity).
  revert prompt Hall.
  induction SimpleApp.redundant_phrases as [|phrase phrases IH];
    intros prompt Hall; simpl; [lia|].
  apply andb_prop in Hall as [Hp Ht].
  etransitivity; [apply IH, Ht|].
  rewrite strip_cnt. now apply replace_cnt.
Qed.

Lemma simple_optimize_text_tokens prompt :
  (length (split (SimpleApp.optimize_text prompt))
   <= length (split prompt))%nat.
Proof.
  unfold SimpleApp.optimize_text.
  rewrite split_join_split, !length_split.
  etransitivity; [apply replace_all_cnt; vm_compute; reflexivity|].
  apply remove_redundant_cnt.
Qed.

(** A ratio of a part to a positive whole, scaled. *)
Lemma scaled_ratio_range (part whole : Z) (scale : Q) :
  0 <= part <= whole -> 0 < whole -> (0 <= scale)%Q ->
  (0 <= inject_Z part / inject_Z whole * scale <= scale)%Q.
Proof.
  intros Hpart Hwhole Hscale.
  assert (Hpos : (0 < inject_Z whole)%Q).
  { change 0%Q with (inject_Z 0). rewrite <- Zlt_Qlt. lia. }
  assert (H0 : (0 <= inject_Z part / inject_Z whole)%Q).
  { apply Qle_shift_div_l; [exact Hpos|]. rewrite Qmult_0_l.
    change 0%Q with (inject_Z 0). rewrite <- Zle_Qle. lia. }
  assert (H1 : (inject_Z part / inject_Z whole <= 1)%Q).
  { apply Qle_shift_div_r; [exact Hpos|]. rewrite Qmult_1_l.
    rewrite <- Zle_Qle. lia. }
  split.
  - apply Qmult_le_0_compat; assumption.
  - rewrite <- (Qmult_1_l scale) at 2.
    apply Qmult_le_compat_r; assumption.
Qed.

End MoreMetrics.

(** X2. [optimize_prompt] of [api/optimize.py] on any prompt: the optimized
    token count never exceeds the original one, so the guard
    [max(0, original - optimized)] never clamps and the cost reduction is
    exactly the difference times 0.002, never negative; the reduction
    percentage lies in [0, 100], and the optimization potential and the
    strategy effectiveness in [0, 1]. *)
Theorem api_metrics_in_range (prompt : str) :
  let original := Z.of_nat (length (split prompt)) in
  let optimized := Z.of_nat (length (split (Api.optimize_text prompt))) in
  exists r,
    Api.optimize_prompt prompt = Ok r
    /\ 0 <= original - optimized
    /\ Api.cost_reduction r = (inject_Z (original - optimized) * 0.002)%Q
    /\ (0 <= Api.cost_reduction r)%Q
    /\ (0 <= Api.reduction_percentage (Api.tokens r) <= 100)%Q
    /\ (0 <= Api.optimization_potential (Api.insights r) <= 1)%Q
    /\ (0 <= Api.strategy_effectiveness (Api.insights r) <= 1)%Q.
Proof.
  intros original optimized.
  pose proof (optimize_text_tokens prompt) as Hle.
  assert (Hdiff : 0 <= original - optimized) by (unfold original, optimized; lia).
  unfold Api.optimize_prompt, truediv. fold original. fold optimized.
  replace (Z.max 0 (original - optimized)) with (original - optimized) by lia.
  destruct (Z.max original 1 =? 0) eqn:Hmax; [apply Z.eqb_eq in Hmax; lia|].
  assert (Hcost : (0 <= inject_Z (original - optimized) * 0.002)%Q).
  { apply Qmult_le_0_compat; [|unfold Qle; simpl; lia].
    change 0%Q with (inject_Z 0). rewrite <- Zle_Qle. lia. }
  destruct (0 <? original) eqn:Hpos.
  - apply Z.ltb_lt in Hpos.
    destruct (original =? 0) eqn:Hz; [apply Z.eqb_eq in Hz; lia|].
    eexists. split; [reflexivity|].
    cbn [Api.cost_reduction Api.tokens Api.insights Api.reduction_percentage
         Api.optimization_potential Api.strategy_effectiveness].
    split; [exact Hdiff|]. split; [reflexivity|]. split; [exact Hcost|].
    split; [|split].
    + apply scaled_ratio_range; [unfold optimized; lia | lia | unfold Qle; simpl; lia].
    + apply scaled_count_range; [lia | reflexivity].
    + apply scaled_count_range; [lia | reflexivity].
  - eexists. split; [reflexivity|].
    cbn [Api.cost_reduction Api.tokens Api.insights Api.reduction_percentage
         Api.optimization_potential Api.strategy_effectiveness].
    split; [exact Hdiff|]. split; [reflexivity|]. split; [exact Hcost|].
    split; [|split].
    + split; unfold Qle; simpl; lia.
    + apply scaled_count_range; [lia | reflexivity].
    + apply scaled_count_range; [lia | reflexivity].
Qed.

(** X3. [optimize_prompt] of [start-fastapi.py] returns a result for every
    prompt, the empty one included (the only division is guarded); the
    optimized token count never exceeds the original one, the cost
    reduction is exactly the difference times 0.002, the reduction
    percentage lies in [0, 100], and the quality score and the confidence
    are 0.92 whatever the prompt. *)
Theorem start_fastapi_optimize_prompt_total (prompt : str) :
  let original := Z.of_nat (length (split prompt)) in
  let optimized :=
    Z.of_nat (length (split (StartFastapi.optimize_text prompt))) in
  exists r,
    StartFastapi.optimize_prompt prompt = Ok r
    /\ StartFastapi.optimized_prompt r = StartFastapi.optimize_text prompt
    /\ 0 <= original - optimized
    /\ StartFastapi.cost_reduction r
       = (inject_Z (original - optimized) * 0.002)%Q
    /\ (0 <= StartFastapi.reduction_percentage (StartFastapi.tokens r)
        <= 100)%Q
    /\ StartFastapi.quality_score r = 0.92%Q
    /\ StartFastapi.confidence (StartFastapi.insights r) = 0.92%Q.
Proof.
  intros original optimized.
  pose proof (start_optimize_text_tokens prompt) as Hle.
  assert (Hdiff : 0 <= original - optimized) by (unfold original, optimized; lia).
  unfold StartFastapi.optimize_prompt, truediv. fold original. fold optimized.
  replace (Z.max 0 (original - optimized)) with (original - optimized) by lia.
  destruct (0 <? original) eqn:Hpos.
  - apply Z.ltb_lt in Hpos.
    destruct (original =? 0) eqn:Hz; [apply Z.eqb_eq in Hz; lia|].
    eexists. split; [reflexivity|].
    cbn [StartFastapi.cost_reduction StartFastapi.tokens StartFastapi.insights
         StartFastapi.reduction_percentage StartFastapi.optimized_prompt
         StartFastapi.quality_score StartFastapi.confidence].
    split; [reflexivity|]. split; [exact Hdiff|]. split; [reflexivity|].
    split; [|split; reflexivity].
    apply scaled_ratio_range; [unfold optimized; lia | lia | unfold Qle; simpl; lia].
  - eexists. split; [reflexivity|].
    cbn [StartFastapi.cost_reduction StartFastapi.tokens StartFastapi.insights
         StartFastapi.reduction_percentage StartFastapi.optimized_prompt
         StartFastapi.quality_score StartFastapi.confidence].
    split; [reflexivity|]. split; [exact Hdiff|]. split; [reflexivity|].
    split; [|split; reflexivity].
    split; unfold Qle; simpl; lia.
Qed.

(** X4. [simple_optimize_prompt] on a prompt with at least one token
    returns a result whose optimized token count never exceeds the
    original one; the cost reduction is exactly the difference times 0.002
    and the reduction percentage lies in [0, 100]. *)
Theorem simple_app_metrics_in_range (prompt : str) :
  let original := Z.of_nat (length (split prompt)) in
  let optimized :=
    Z.of_nat (length (split (SimpleApp.optimize_text prompt))) in
  split prompt <> [] ->
  exists r,
    SimpleApp.simple_optimize_prompt prompt = Ok r
    /\ SimpleApp.optimized_prompt r = SimpleApp.optimize_text prompt
    /\ 0 <= original - optimized
    /\ SimpleApp.cost_reduction r
       = (inject_Z (original - optimized) * 0.002)%Q
    /\ (0 <= SimpleApp.reduction_percentage (SimpleApp.tokens r) <= 100)%Q.
Proof.
  intros original optimized Hne.
  pose proof (simple_optimize_text_tokens prompt) as Hle.
  assert (Hpos : 0 < original).
  { unfold original. destruct (split prompt); [contradiction | simpl; lia]. }
  assert (Hdiff : 0 <= original - optimized) by (unfold original, optimized; lia).
  unfold SimpleApp.simple_optimize_prompt, truediv.
  fold original. fold optimized.
  replace (Z.max 0 (original - optimized)) with (original - optimized) by lia.
  destruct (original =? 0) eqn:Hz; [apply Z.eqb_eq in Hz; lia|].
  destruct (0 <? original) eqn:Hlt; [|apply Z.ltb_ge in Hlt; lia].
  eexists. split; [reflexivity|].
  cbn [SimpleApp.cost_reduction SimpleApp.tokens SimpleApp.optimized_prompt
       SimpleApp.reduction_percentage].
  split; [reflexivity|]. split; [exact Hdiff|]. split; [reflexivity|].
  apply scaled_ratio_range; [unfold optimized; lia | lia | unfold Qle; simpl; lia].
Qed.

(** The simple service on a prompt of six words. *)
Lemma simple_app_metrics_in_range_witness :
  let prompt := lit "please build a chatbot in order to chat" in
  split prompt <> []
  /\ exists r,
       SimpleApp.simple_optimize_prompt prompt = Ok r
       /\ SimpleApp.optimized_prompt r = SimpleApp.optimize_text prompt.
Proof.
  intros prompt.
  assert (Hne : split prompt <> []) by (vm_compute; discriminate).
  split; [exact Hne|].
  destruct (simple_app_metrics_in_range prompt Hne) as (r & Hr & Htext & _).
  exists r. split; assumption.
Defined.

(** ** What entropy optimization keeps *)

Section EntropyKeeps.

Implicit Types (words : list str) (w : str).

(** The float test of the loop read on the counts: the word makes up more
    than a tenth of the words. *)
Lemma frequency_above_tenth (count total : Z) :
  0 < total ->
  App.Qgtb (inject_Z count / inject_Z total) 0.1 = true
  <-> total < 10 * count.
Proof.
  intros Htotal. rewrite Qgtb_true.
  destruct total as [|p|p]; try lia.
  unfold Qlt, Qdiv, Qmult, Qinv, inject_Z. simpl. lia.
Qed.

Lemma entropy_keep_iff words w :
  In w words ->
  entropy_keep words w = true
  <-> (Z.of_nat (length words) < 10 * occurrences w words
       \/ (6 < length w)%nat).
Proof.
  intros Hin. unfold entropy_keep.
  rewrite orb_true_iff, Nat.ltb_lt, frequency_above_tenth; [reflexivity|].
  destruct words; [destruct Hin | simpl; lia].
Qed.

Lemma filter_all {A} (f : A -> bool) (l : list A) :
  (forall x, In x l -> f x = true) -> List.filter f l = l.
Proof.
  induction l as [|x l IH]; intros H; simpl; [reflexivity|].
  rewrite (H x) by now left. f_equal. apply IH. intros y Hy. apply H. now right.
Qed.

End EntropyKeeps.

(** X5. [_entropy_optimization] never raises, and its text is made of
    words of the prompt in their order.  A word of the prompt is in the
    text exactly when its occurrences are more than a tenth of the words
    or it has more than six characters.  So a prompt of fewer than ten
    words loses no word (only its white space is normalised), and in a
    prompt of ten words or more every word of at most six characters that
    occurs once is dropped. *)
Theorem entropy_optimization_keeps (prompt : str) :
  let words := split prompt in
  exists text,
    App._entropy_optimization prompt = Ok text
    /\ split text `sublist_of` words
    /\ (forall w, In w words ->
          In w (split text)
          <-> (Z.of_nat (length words) < 10 * occurrences w words
               \/ (6 < length w)%nat))
    /\ ((length words < 10)%nat -> text = join (lit " ") words)
    /\ (forall w, In w words ->
          (10 <= length words)%nat -> occurrences w words = 1 ->
          (length w <= 6)%nat -> ~ In w (split text)).
Proof.
  intros words. exists (entropy_pruned prompt).
  split; [apply entropy_optimization_filter|].
  assert (Hsplit : split (entropy_pruned prompt)
                   = List.filter (entropy_keep words) words)
    by apply split_join_filter.
  assert (Hiff : forall w, In w words ->
            In w (split (entropy_pruned prompt))
            <-> (Z.of_nat (length words) < 10 * occurrences w words
                 \/ (6 < length w)%nat)).
  { intros w Hin. rewrite Hsplit, filter_In, entropy_keep_iff by exact Hin.
    tauto. }
  split; [rewrite Hsplit; apply filter_sublist|].
  split; [exact Hiff|]. split.
  - intros Hshort. unfold entropy_pruned. fold words. f_equal.
    apply filter_all. intros w Hin. apply entropy_keep_iff; [exact Hin|].
    left. pose proof (occurrences_pos w words Hin). lia.
  - intros w Hin Hlong Honce Hlen Hkept.
    apply Hiff in Hkept; [|exact Hin]. lia.
Qed.

(** A prompt of three words keeps them all. *)
Lemma entropy_optimization_keeps_witness :
  let prompt := lit "  fix   the bug " in
  (length (split prompt) < 10)%nat
  /\ App._entropy_optimization prompt = Ok (lit "fix the bug").
Proof.
  intros prompt.
  assert (Hshort : (length (split prompt) < 10)%nat) by (vm_compute; lia).
  split; [exact Hshort|].
  destruct (entropy_optimization_keeps prompt)
    as (text & Hrun & _ & _ & Hall & _).
  rewrite Hrun. f_equal. exact (Hall Hshort).
Defined.

(** ** The complexity score grows with the prompt *)

Section ComplexityGrows.

Implicit Types (p s t : str).

Lemma startswith_app_r p s t :
  startswith p s = true -> startswith p (s ++ t) = true.
Proof.
  revert s. induction p as [|a p IH]; intros s H; [reflexivity|].
  destruct s as [|b s]; [discriminate|].
  simpl in *. destruct (ascii_dec a b); [now apply IH | discriminate].
Qed.

Lemma contains_cons p c s :
  contains p (c :: s) = startswith p (c :: s) || contains p s.
Proof. reflexivity. Qed.

Lemma contains_app_l p s t :
  contains p s = true -> contains p (s ++ t) = true.
Proof.
  induction s as [|c s IH]; intros H.
  - destruct p as [|a p]; [|discriminate]. now destruct t.
  - rewrite <- app_comm_cons, contains_cons. rewrite contains_cons in H.
    apply orb_true_iff in H as [H|H]; apply orb_true_iff.
    + left. exact (startswith_app_r _ _ t H).
    + right. now apply IH.
Qed.

Lemma contains_app_r p s t :
  contains p t = true -> contains p (s ++ t) = true.
Proof.
  intros H. induction s as [|c s IH]; [exact H|].
  rewrite <- app_comm_cons, contains_cons. apply orb_true_iff. now right.
Qed.

Lemma length_filter_mono {A} (f g : A -> bool) (l : list A) :
  (forall x, f x = true -> g x = true) ->
  (length (List.filter f l) <= length (List.filter g l))%nat.
Proof.
  intros H. induction l as [|x l IH]; simpl; [lia|].
  destruct (f x) eqn:Hf.
  - rewrite (H x Hf). simpl. lia.
  - destruct (g x); simpl; lia.
Qed.

End ComplexityGrows.

(** X6. Text added before or after a prompt never lowers its complexity
    score: [_calculate_complexity] of the longer text is at least that of
    the prompt. *)
Theorem complexity_grows_with_context (before prompt after : str) :
  (App._calculate_complexity prompt
   <= App._calculate_complexity (before ++ prompt ++ after))%Q.
Proof.
  unfold App._calculate_complexity. apply Q.min_le_compat_l.
  unfold Qdiv. apply Qmult_le_compat_r; [|unfold Qle; simpl; lia].
  rewrite <- Zle_Qle. unfold App.indicator_count. apply inj_le.
  apply length_filter_mono. intros indicator Hin.
  unfold lower. rewrite !map_app. apply contains_app_r, contains_app_l.
  exact Hin.
Qed.

(** ** The snapshot of [RealTimeAnalytics] *)

Section Snapshot.

Lemma last_n_map {A B} (f : A -> B) (n : nat) (l : list A) :
  App.last_n n (map f l) = map f (App.last_n n l).
Proof. unfold App.last_n. rewrite length_map. apply skipn_map. Qed.

Lemma last_n_last_n {A} (n m : nat) (l : list A) :
  (n <= m)%nat -> App.last_n n (App.last_n m l) = App.last_n n l.
Proof.
  intros Hle. unfold App.last_n at 1. rewrite length_last_n.
  unfold App.last_n. rewrite drop_drop. f_equal. lia.
Qed.

Lemma last_n_snoc {A} (n : nat) (l : list A) (x : A) :
  App.last_n (S n) (l ++ [x]) = App.last_n n l ++ [x].
Proof.
  unfold App.last_n. rewrite length_app. simpl length.
  replace (length l + 1 - S n)%nat with (length l - n)%nat by lia.
  apply drop_app_le. lia.
Qed.

End Snapshot.

(** X7. The snapshot [get_real_time_analytics], whatever pandas computes
    for a mean: the count is the length of the history; on an empty
    history the four numbers are zero and there is no recent trend;
    otherwise the recent trend is the mean of the cost reductions of the
    last ten entries, so it is the average savings itself when there are at
    most ten entries, and two histories with the same last ten entries have
    the same trend.  Right after a result is recorded, the trend is the
    mean of the cost reductions of the nine entries before it and its
    own. *)
Theorem analytics_snapshot_relations `{pandas : !App.Pandas} :
  let cost := fun e => App.cost_reduction (App.entry_result e) in
  (forall h,
      App.total_optimizations (App.get_real_time_analytics h)
      = Z.of_nat (length h))
  /\ App.get_real_time_analytics []
     = {| App.total_optimizations := 0; App.average_savings := 0;
          App.total_savings := 0; App.success_rate := 0;
          App.recent_trend := None |}
  /\ (forall h,
        h <> [] ->
        App.recent_trend (App.get_real_time_analytics h)
        = Some (App.Series_mean (map cost (App.last_n 10 h))))
  /\ (forall h,
        h <> [] -> (length h <= 10)%nat ->
        App.recent_trend (App.get_real_time_analytics h)
        = Some (App.average_savings (App.get_real_time_analytics h)))
  /\ (forall h h',
        h <> [] -> h' <> [] -> App.last_n 10 h = App.last_n 10 h' ->
        App.recent_trend (App.get_real_time_analytics h)
        = App.recent_trend (App.get_real_time_analytics h'))
  /\ (forall now r h,
        App.recent_trend
          (App.get_real_time_analytics (App.update_metrics now r h))
        = Some (App.Series_mean
                  (map cost (App.last_n 9 h) ++ [App.cost_reduction r]))).
Proof.
  intros cost.
  assert (Htrend : forall h,
             h <> [] ->
             App.recent_trend (App.get_real_time_analytics h)
             = Some (App.Series_mean (map cost (App.last_n 10 h)))).
  { intros [|e h] Hne; [contradiction|].
    cbn [App.get_real_time_analytics App.recent_trend].
    now rewrite last_n_map. }
  split; [|split; [reflexivity|split; [exact Htrend|split; [|split]]]].
  - intros h. apply total_optimizations_length.
  - intros h Hne Hshort. rewrite (Htrend h Hne).
    rewrite (last_n_short 10 h Hshort).
    destruct h as [|e h]; [contradiction | reflexivity].
  - intros h h' Hne Hne' Hsame.
    now rewrite (Htrend h Hne), (Htrend h' Hne'), Hsame.
  - intros now r h. rewrite Htrend.
    + rewrite update_metrics_last_n.
      rewrite (last_n_last_n 10 1000) by (apply Nat.leb_le; reflexivity).
      rewrite last_n_snoc, map_app. reflexivity.
    + rewrite update_metrics_last_n. intros Hnil.
      apply (f_equal length) in Hnil.
      rewrite length_last_n, length_app in Hnil. cbn [length] in Hnil. lia.
Qed.

(** A history of two entries. *)
Lemma analytics_snapshot_relations_witness :
  let h := [Runs.entry_of (0, Runs.sample_result);
            Runs.entry_of (1, Runs.sample_result)] in
  h <> [] /\ (length h <= 10)%nat
  /\ App.recent_trend (App.get_real_time_analytics (pandas := Runs.unrounded) h)
     = Some (App.average_savings
               (App.get_real_time_analytics (pandas := Runs.unrounded) h)).
Proof.
  intros h.
  assert (Hne : h <> []) by discriminate.
  assert (Hshort : (length h <= 10)%nat) by (simpl; lia).
  split; [exact Hne|]. split; [exact Hshort|].
  exact (proj1 (proj2 (proj2 (proj2
           (analytics_snapshot_relations (pandas := Runs.unrounded)))))
           h Hne Hshort).
Defined.

(** ** What the two broadcasts keep and deliver *)

Section BroadcastInvariants.

Context {handle : Type} `{EqDecision handle}.
Variable fails : handle -> bool.

Implicit Types (c : handle) (l p : list handle).

Local Abbreviation ok := (fun c => negb (fails c)).

Lemma remove_first_sublist c l : Api.remove_first c l `sublist_of` l.
Proof.
  induction l as [|x l IH]; simpl; [constructor|].
  destruct (decide (x = c)); [now apply sublist_cons | now apply sublist_skip].
Qed.

Lemma filter_remove_first c l :
  fails c = true ->
  List.filter ok (Api.remove_first c l) = List.filter ok l.
Proof.
  intros Hc. induction l as [|x l IH]; simpl; [reflexivity|].
  destruct (decide (x = c)) as [->|_].
  - now rewrite Hc.
  - simpl. now rewrite IH.
Qed.

(** What every run of the loop of [ConnectionManager.broadcast] keeps. *)
Lemma broadcast_loop_invariant (m : App.message) fuel :
  forall i l sent l' sent',
    App.broadcast_loop fails fuel m i l sent = Some (l', sent') ->
    l' `sublist_of` l
    /\ List.filter ok l' = List.filter ok l
    /\ exists s,
         sent' = sent ++ s
         /\ Forall (fun x => fails (fst x) = false /\ snd x = m
                             /\ In (fst x) l') s.
Proof.
  induction fuel as [|fuel IH]; intros i l sent l' sent' Hrun;
    [discriminate|].
  rewrite broadcast_loop_S in Hrun.
  destruct (l !! i) as [c|] eqn:Hc.
  - destruct (fails c) eqn:Hf.
    + destruct (IH _ _ _ _ _ Hrun) as (Hsub & Hfilter & s & Hs & Hall).
      split; [etransitivity; [exact Hsub | apply remove_first_sublist]|].
      split; [now rewrite Hfilter, filter_remove_first|].
      exists s. split; assumption.
    + destruct (IH _ _ _ _ _ Hrun) as (Hsub & Hfilter & s & Hs & Hall).
      split; [exact Hsub|]. split; [exact Hfilter|].
      exists ((c, m) :: s). split; [now rewrite Hs, <- app_assoc|].
      constructor; [|exact Hall].
      cbn [fst snd]. split; [exact Hf|]. split; [reflexivity|].
      assert (Hin : In c (List.filter ok l')).
      { rewrite Hfilter. apply filter_In. split; [|now rewrite Hf].
        apply list_elem_of_In. eapply list_elem_of_lookup_2. exact Hc. }
      apply filter_In in Hin. tauto.
  - injection Hrun as <- <-. split; [reflexivity|]. split; [reflexivity|].
    exists []. split; [now rewrite app_nil_r | constructor].
Qed.

End BroadcastInvariants.

(** X8. [ConnectionManager.broadcast] of [app.py] always ends.  It only
    ever removes connections: the connections left are connections of
    before in their order, and every connection whose send succeeds is
    still among them.  Every message it delivers is the broadcast message,
    to a connection whose send succeeds and which stays registered. *)
Theorem app_broadcast_keeps_live_connections {handle : Type}
    `{EqDecision handle} (fails : handle -> bool) (m : App.message)
    (l : list handle) :
  exists l' sent,
    App.broadcast fails m l = Some (l', sent)
    /\ l' `sublist_of` l
    /\ List.filter (fun c => negb (fails c)) l'
       = List.filter (fun c => negb (fails c)) l
    /\ Forall (fun x => fails (fst x) = false /\ snd x = m /\ In (fst x) l')
         sent.
Proof.
  destruct (broadcast_terminates fails m l) as [[l' sent] Hrun].
  exists l', sent. split; [exact Hrun|].
  destruct (broadcast_loop_invariant fails m _ _ _ _ _ _ Hrun)
    as (Hsub & Hfilter & s & Hs & Hall).
  simpl in Hs. subst s. repeat split; assumption.
Qed.

(** X9. When no send fails, [ConnectionManager.broadcast] delivers the
    message to every connection, once and in order, and leaves the list of
    connections as it was. *)
Theorem app_broadcast_without_failure {handle : Type} `{EqDecision handle}
    (fails : handle -> bool) (m : App.message) (l : list handle) :
  Forall (fun c => fails c = false) l ->
  App.broadcast fails m l = Some (l, map (fun c => (c, m)) l).
Proof.
  intros Hall. unfold App.broadcast.
  replace (S (length l)) with (length l + 1)%nat by lia.
  pose proof (broadcast_loop_prefix fails m l Hall 1%nat [] [] []) as Hrun.
  rewrite app_nil_r in Hrun. cbn [app length Nat.add] in Hrun.
  rewrite Hrun, broadcast_loop_S.
  now rewrite lookup_ge_None_2 by lia.
Qed.

(** Three connections, all of them live. *)
Lemma app_broadcast_without_failure_witness :
  let m := App.OptimizationCompleted Runs.sample_result in
  Forall (fun c : nat => (fun _ => false) c = false) [4; 5; 6]%nat
  /\ App.broadcast (fun _ : nat => false) m [4; 5; 6]%nat
     = Some ([4; 5; 6]%nat, [(4%nat, m); (5%nat, m); (6%nat, m)]).
Proof.
  intros m.
  assert (Hall : Forall (fun c : nat => (fun _ => false) c = false)
                   [4; 5; 6]%nat) by (repeat constructor).
  split; [exact Hall|].
  exact (app_broadcast_without_failure (fun _ => false) m _ Hall).
Defined.

(** X11. [broadcast_message] of [api/optimize.py] and [start-fastapi.py]
    attempts one send per connection; afterwards the connection list is
    exactly the connections whose send succeeded, in their order, each of
    which received the message once; no failed connection is left, and a
    second broadcast finds nothing more to remove. *)
Theorem broadcast_message_prunes_exactly {handle message : Type}
    `{EqDecision handle} (fails : handle -> bool) (msg : message)
    (l : list handle) :
  let live := List.filter (fun c => negb (fails c)) l in
  Api.broadcast_message fails msg l = (live, map (fun c => (c, msg)) live)
  /\ Forall (fun c => fails c = false) live
  /\ live `sublist_of` l
  /\ Api.broadcast_message fails msg live
     = (live, map (fun c => (c, msg)) live).
Proof.
  intros live. split; [apply broadcast_message_filter|].
  assert (Hlive : Forall (fun c => fails c = false) live).
  { apply Forall_forall. intros c Hc.
    apply list_elem_of_In, filter_In in Hc as [_ Hc].
    now apply negb_true_iff. }
  split; [exact Hlive|]. split; [apply filter_sublist|].
  rewrite broadcast_message_filter.
  assert (Hsame : List.filter (fun c => negb (fails c)) live = live).
  { apply filter_all. intros c Hc. rewrite Forall_forall in Hlive.
    apply negb_true_iff, Hlive, list_elem_of_In, Hc. }
  now rewrite Hsame.
Qed.

(** ** Connecting and disconnecting in [app.py] *)

Section ConnectionFacts.

Context {handle : Type} `{EqDecision handle}.

Implicit Types (w c : handle) (l p : list handle).

Lemma remove_first_absent w l : ~ In w l -> Api.remove_first w l = l.
Proof.
  induction l as [|x l IH]; intros Hnot; simpl; [reflexivity|].
  destruct (decide (x = w)) as [->|_]; [exfalso; apply Hnot; now left|].
  f_equal. apply IH. intros Hin. apply Hnot. now right.
Qed.

Lemma length_remove_first_present w l :
  In w l -> S (length (Api.remove_first w l)) = length l.
Proof.
  induction l as [|x l IH]; intros Hin; [destruct Hin|]. simpl.
  destruct (decide (x = w)) as [|Hne]; [reflexivity|].
  simpl. f_equal. apply IH. destruct Hin; [contradiction | assumption].
Qed.

End ConnectionFacts.

(** X12. [ConnectionManager.disconnect] raises [ValueError] exactly when
    the connection is not in the list; otherwise it removes one occurrence
    and nothing else.  Disconnecting right after connecting a connection
    that was not in the list gives the list back.  After a broadcast has
    removed a connection whose send failed, disconnecting that connection,
    which the [/ws] handler of [app.py] does on [WebSocketDisconnect],
    raises [ValueError]. *)
Theorem disconnect_after_connect_or_broadcast {handle : Type}
    `{EqDecision handle} :
  (forall (w : handle) l, App.disconnect w l = None <-> ~ In w l)
  /\ (forall (w : handle) l l',
        App.disconnect w l = Some l' ->
        S (length l') = length l /\ l' `sublist_of` l
        /\ forall c, c <> w -> In c l -> In c l')
  /\ (forall (w : handle) l,
        ~ In w l -> App.disconnect w (App.connect w l) = Some l)
  /\ (forall (fails : handle -> bool) (m : App.message) (w : handle) p rest,
        NoDup (p ++ w :: rest) ->
        Forall (fun c => fails c = false) p ->
        fails w = true ->
        exists l' sent,
          App.broadcast fails m (p ++ w :: rest) = Some (l', sent)
          /\ App.disconnect w l' = None).
Proof.
  assert (Hnone : forall (w : handle) l,
             App.disconnect w l = None <-> ~ In w l).
  { intros w l. unfold App.disconnect.
    destruct (bool_decide (w ∈ l)) eqn:Hd.
    - apply bool_decide_eq_true, list_elem_of_In in Hd.
      split; [discriminate | contradiction].
    - apply bool_decide_eq_false in Hd. rewrite list_elem_of_In in Hd.
      split; [intros _; exact Hd | reflexivity]. }
  split; [exact Hnone|]. split; [|split].
  - intros w l l' Hd. unfold App.disconnect in Hd.
    destruct (bool_decide (w ∈ l)) eqn:Hin; [|discriminate].
    apply bool_decide_eq_true, list_elem_of_In in Hin.
    injection Hd as <-.
    split; [now apply length_remove_first_present|].
    split; [apply remove_first_sublist|].
    intros c Hne Hc. clear Hin. induction l as [|x l IH]; [destruct Hc|].
    simpl. destruct (decide (x = w)) as [->|_].
    + destruct Hc as [Hc|Hc]; [congruence | exact Hc].
    + destruct Hc as [Hc|Hc]; [now left | right; now apply IH].
  - intros w l Hnot. unfold App.disconnect, App.connect.
    rewrite bool_decide_eq_true_2
      by (apply list_elem_of_In, in_or_app; right; now left).
    rewrite remove_first_app by exact Hnot. now rewrite app_nil_r.
  - intros fails m w p rest Hnodup Hp Hw.
    destruct (broadcast_terminates fails m (p ++ w :: rest))
      as [[l' sent] Hrun].
    exists l', sent. split; [exact Hrun|]. apply Hnone.
    assert (Hnotin : ~ In w p).
    { intros Hin. rewrite Forall_forall in Hp.
      apply list_elem_of_In, Hp in Hin. congruence. }
    unfold App.broadcast in Hrun.
    replace (S (length (p ++ w :: rest)))
      with (length p + S (length rest + 1))%nat in Hrun
      by (rewrite length_app; simpl; lia).
    rewrite (broadcast_loop_prefix fails m p Hp _ [] (w :: rest) []) in Hrun.
    cbn [length Nat.add app] in Hrun.
    rewrite broadcast_loop_S in Hrun.
    rewrite list_lookup_middle in Hrun by reflexivity. rewrite Hw in Hrun.
    rewrite remove_first_app in Hrun by exact Hnotin.
    destruct (broadcast_loop_invariant fails m _ _ _ _ _ _ Hrun)
      as (Hsub & _).
    intros Hin. apply list_elem_of_In in Hin.
    pose proof (elem_of_sublist _ _ _ Hin Hsub) as Hw'.
    apply NoDup_app in Hnodup as (_ & Hdisj & Hnd).
    apply NoDup_cons in Hnd as [Hwrest _].
    apply elem_of_app in Hw' as [Hw'|Hw'].
    + apply (Hdisj w Hw'). left.
    + exact (Hwrest Hw').
Qed.

(** One connection fails during a broadcast; its handler then
    disconnects. *)
Lemma disconnect_after_connect_or_broadcast_witness :
  let m := App.OptimizationCompleted Runs.sample_result in
  let fails := fun c : nat => bool_decide (c = 7%nat) in
  NoDup ([3%nat] ++ 7%nat :: [8%nat])
  /\ exists l' sent,
       App.broadcast fails m ([3%nat] ++ 7%nat :: [8%nat]) = Some (l', sent)
       /\ App.disconnect 7%nat l' = None.
Proof.
  intros m fails.
  assert (Hnodup : NoDup ([3%nat] ++ 7%nat :: [8%nat])).
  { apply (bool_decide_unpack (NoDup ([3%nat] ++ 7%nat :: [8%nat]))).
    vm_compute. exact I. }
  split; [exact Hnodup|].
  exact (proj2 (proj2 (proj2 disconnect_after_connect_or_broadcast))
           fails m 7%nat [3%nat] [8%nat] Hnodup
           ltac:(repeat constructor) eq_refl).
Defined.

(** ** What the [/optimize] endpoint of [app.py] does to the state *)

Section EndpointEffects.

Lemma apply_strategy_returns (strategy prompt : str) (ins : App.ml_insights) :
  In strategy (map fst App.strategies) ->
  exists text, App.apply_strategy strategy prompt ins = Ok text.
Proof.
  intros Hin. cbn [map fst App.strategies In] in Hin.
  destruct Hin as [<-|[<-|[<-|[<-|[<-|[]]]]]].
  - change (App.apply_strategy (lit "entropy_optimization") prompt ins)
      with (App._entropy_optimization prompt).
    rewrite entropy_optimization_filter. eexists. reflexivity.
  - eexists. reflexivity.
  - eexists. reflexivity.
  - change (App.apply_strategy (lit "ml_guided_optimization") prompt ins)
      with (App._ml_guided_optimization prompt ins).
    unfold App._ml_guided_optimization.
    destruct (App.Qgtb (App.complexity_score ins) 0.7);
      [rewrite entropy_optimization_filter; eexists; reflexivity|].
    destruct (App.Qgtb (App.complexity_score ins) 0.4); eexists; reflexivity.
  - change (App.apply_strategy (lit "adaptive_compression") prompt ins)
      with (App._adaptive_compression prompt).
    unfold App._adaptive_compression. rewrite entropy_optimization_filter.
    eexists. reflexivity.
Qed.

Lemma select_recognized (hint : str) (ins : App.ml_insights) :
  In hint App.recognized_strategies ->
  In (App.select_strategy hint ins) (map fst App.strategies).
Proof.
  intros Hin. unfold App.select_strategy.
  destruct (decide (hint = lit "auto")) as [_|Hne].
  - destruct (App.Qgtb _ 0.7); [cbn; tauto|].
    destruct (App.Qgtb _ 0.4); cbn; tauto.
  - destruct Hin as [Heq|Hin]; [congruence | exact Hin].
Qed.

Lemma last_update_metrics now r h :
  last (App.update_metrics now r h) = Some (Runs.entry_of (now, r)).
Proof.
  rewrite update_metrics_last_n. unfold App.last_n.
  rewrite drop_app_le by (rewrite length_app; simpl; lia).
  apply last_snoc.
Qed.

End EndpointEffects.

(** X13. The [/optimize] endpoint of [app.py] always answers.  When it
    answers with an error the status is 500 and the history, the
    connections and the deliveries are as before.  When it answers 200, the
    result is the newest entry of the history, which has at most 1000
    entries; no connection whose send succeeds is dropped; and every
    message delivered carries this result. *)
Theorem app_endpoint_effects {handle : Type} `{EqDecision handle}
    (fails : handle -> bool)
    (predict : str -> str -> Q -> Q -> res (Q * Q * Q))
    (encode : str -> res (list Z)) (now : Z) (request : OptimizationRequest)
    (st : App.state) :
  exists response st',
    App.optimize_prompt fails predict encode now request st
    = Some (response, st')
    /\ match response with
       | HTTPException status_code e =>
           status_code = 500 /\ st' = st
           /\ App.build_result predict encode request = Raise e
       | Http200 result =>
           App.build_result predict encode request = Ok result
           /\ last (App.metrics_history st')
              = Some {| App.timestamp := now; App.entry_result := result |}
           /\ (length (App.metrics_history st') <= 1000)%nat
           /\ App.active_connections st'
              `sublist_of` App.active_connections st
           /\ List.filter (fun c => negb (fails c)) (App.active_connections st')
              = List.filter (fun c => negb (fails c)) (App.active_connections st)
           /\ exists sent,
                App.delivered st' = App.delivered st ++ sent
                /\ Forall (fun x => fails (fst x) = false
                                    /\ snd x = App.OptimizationCompleted result)
                     sent
       end.
Proof.
  unfold App.optimize_prompt.
  destruct (App.build_result predict encode request) as [result|e].
  - destruct (broadcast_terminates fails (App.OptimizationCompleted result)
                (App.active_connections st)) as [[connections sent] Hrun].
    rewrite Hrun.
    destruct (broadcast_loop_invariant fails _ _ _ _ _ _ _ Hrun)
      as (Hsub & Hfilter & s & Hs & Hall).
    simpl in Hs. subst s.
    eexists _, _. split; [reflexivity|].
    cbn [App.metrics_history App.active_connections App.delivered].
    split; [reflexivity|]. split; [apply last_update_metrics|].
    split; [rewrite update_metrics_last_n, length_last_n; lia|].
    split; [exact Hsub|]. split; [exact Hfilter|].
    exists sent. split; [reflexivity|].
    eapply Forall_impl; [exact Hall|]. cbv beta. tauto.
  - eexists _, _. split; [reflexivity|]. repeat split; reflexivity.
Qed.

(** X14. In [app.py], for a recognized strategy hint and a predictor and a
    tokenizer that return, a prompt for which the tokenizer gives no token
    (the empty prompt under [cl100k_base]) makes the endpoint answer 500
    with [ZeroDivisionError], from the unguarded division of the reduction
    percentage; nothing is recorded and nothing is broadcast. *)
Theorem app_endpoint_no_tokens {handle : Type} `{EqDecision handle}
    (fails : handle -> bool)
    (predict : str -> str -> Q -> Q -> res (Q * Q * Q))
    (encode : str -> res (list Z)) (now : Z) (request : OptimizationRequest)
    (st : App.state) (prediction : Q * Q * Q) :
  In (optimization_strategy request) App.recognized_strategies ->
  predict (prompt request) (context request) (budget request)
    (quality_threshold request) = Ok prediction ->
  (forall text, exists encoded, encode text = Ok encoded) ->
  encode (prompt request) = Ok [] ->
  App.optimize_prompt fails predict encode now request st
  = Some (HTTPException 500 ZeroDivisionError, st).
Proof.
  intros Hhint Hpredict Hencode Hempty.
  destruct prediction as [[cost quality] conf].
  unfold App.optimize_prompt, App.build_result, App.predict_optimization.
  rewrite Hpredict, res_bind_Ok. cbv beta iota.
  unfold mret at 1, res_ret at 1. rewrite res_bind_Ok.
  match goal with
  | |- context [App.apply_strategy (App.select_strategy ?h ?i) ?p ?i] =>
      destruct (apply_strategy_returns (App.select_strategy h i) p i
                  (select_recognized h i Hhint)) as [text ->]
  end.
  rewrite res_bind_Ok, Hempty, res_bind_Ok.
  destruct (Hencode text) as [optimized ->].
  rewrite res_bind_Ok. reflexivity.
Qed.

(** The empty prompt under a tokenizer that gives one token per
    character. *)
Lemma app_endpoint_no_tokens_witness :
  let request :=
    {| prompt := lit ""; context := lit "general"; budget := 0.05;
       quality_threshold := 0.95; optimization_strategy := lit "auto" |} in
  let predict := fun _ _ _ _ : _ => Ok (0.2, 0.9, 0.5)%Q in
  let encode := fun s : str => Ok (map (fun c => Z.of_N (N_of_ascii c)) s) in
  let st : @App.state nat :=
    {| App.metrics_history := []; App.active_connections := [1%nat];
       App.delivered := [] |} in
  In (optimization_strategy request) App.recognized_strategies
  /\ encode (prompt request) = Ok []
  /\ App.optimize_prompt (fun _ => false) predict encode 0 request st
     = Some (HTTPException 500 ZeroDivisionError, st).
Proof.
  intros request predict encode st.
  assert (Hhint : In (optimization_strategy request) App.recognized_strategies)
    by (left; reflexivity).
  split; [exact Hhint|]. split; [reflexivity|].
  exact (app_endpoint_no_tokens (fun _ => false) predict encode 0 request st
           (0.2, 0.9, 0.5)%Q Hhint eq_refl
           (fun text => ex_intro _ _ eq_refl) eq_refl).
Defined.

(** ** The [/ws] handler of [api/optimize.py] and [start-fastapi.py] *)

Section HandlerFacts.

Context {handle : Type} `{EqDecision handle}.
Variable loads : str -> option Ws.json.
Variable clock : nat -> Z.

Implicit Types (datas : list str) (recvs : list Ws.recv_outcome).

(** While every send succeeds, the loop answers the texts one by one. *)
Lemma message_loop_texts datas :
  forall recvs k outbox,
    Ws.message_loop loads clock (fun _ => Ws.Sent)
      (map Ws.Text datas ++ recvs) k outbox
    = Ws.message_loop loads clock (fun _ => Ws.Sent) recvs
        (k + length datas)
        (outbox
         ++ imap (fun i data => Ws.reply_to loads data (clock (k + i)%nat))
              datas).
Proof.
  induction datas as [|data datas IH]; intros recvs k outbox.
  - simpl. now rewrite Nat.add_0_r, app_nil_r.
  - cbn [map app length Ws.message_loop Ws.on_exception].
    rewrite imap_cons, Nat.add_0_r. unfold Ws.reply_to at 1.
    destruct (Ws.answer loads data (clock k)) as [e|message];
      rewrite IH, <- app_assoc; cbn [app];
      replace (S k + length datas)%nat with (k + S (length datas))%nat by lia;
      do 3 f_equal; apply imap_ext; intros i d _; cbn;
      now replace (S (k + i))%nat with (k + S i)%nat by lia.
Qed.

Variable send_result : nat -> Ws.send_outcome.

(** Whatever the socket does, the loop sends at most one message for each
    outcome of [receive_text], and an exception leaves it only after a
    send has failed otherwise than by a disconnection. *)
Lemma message_loop_bounds recvs :
  forall k outbox outbox' status,
    Ws.message_loop loads clock send_result recvs k outbox
    = (outbox', status) ->
    (length outbox' <= length outbox + length recvs)%nat
    /\ (status = Ws.Raised ->
        exists j, send_result j = Ws.SendFailure).
Proof.
  induction recvs as [|[data|] recvs IH]; intros k outbox outbox' status Hrun.
  - injection Hrun as <- <-. split; [simpl; lia | discriminate].
  - cbn [Ws.message_loop] in Hrun. unfold Ws.on_exception in Hrun.
    destruct (Ws.answer loads data (clock k)) as [e|message].
    + destruct (send_result k) eqn:Hk; cbv beta iota in Hrun.
      * apply IH in Hrun as [Hlen Hraised]. split; [|exact Hraised].
        rewrite length_app in Hlen. simpl in *. lia.
      * injection Hrun as <- <-. split; [simpl; lia | discriminate].
      * injection Hrun as <- <-. split; [simpl; lia | eauto].
    + destruct (send_result k) eqn:Hk; cbv beta iota in Hrun.
      * apply IH in Hrun as [Hlen Hraised]. split; [|exact Hraised].
        rewrite length_app in Hlen. simpl in *. lia.
      * injection Hrun as <- <-. split; [simpl; lia | discriminate].
      * destruct (send_result (S k)) eqn:Hk'; cbv beta iota in Hrun.
        -- apply IH in Hrun as [Hlen Hraised]. split; [|exact Hraised].
           rewrite length_app in Hlen. simpl in *. lia.
        -- injection Hrun as <- <-. split; [simpl; lia | discriminate].
        -- injection Hrun as <- <-. split; [simpl; lia | eauto].
  - injection Hrun as <- <-. split; [simpl; lia | discriminate].
Qed.

Lemma cleanup_after_append (w : handle) (l : list handle) :
  ~ In w l -> Ws.cleanup w (l ++ [w]) = l.
Proof.
  intros Hnot. unfold Ws.cleanup.
  rewrite bool_decide_eq_true_2
    by (apply list_elem_of_In, in_or_app; right; now left).
  rewrite remove_first_app by exact Hnot. apply app_nil_r.
Qed.

End HandlerFacts.

(** X15. The [/ws] handler while every send succeeds: after the greeting,
    which carries the number of connections, each text received is
    answered by exactly one message, in order, and the loop goes on; only a
    disconnection ends it.  Text that is not JSON, and JSON that is not an
    object, are answered by an error message; an object of type ["ping"]
    by a pong, of type ["get_analytics"] by an analytics update, and any
    other object by an echo of itself. *)
Theorem ws_handler_answers_every_text {handle : Type} `{EqDecision handle}
    (loads : str -> option Ws.json) (clock : nat -> Z) :
  let run := Ws.websocket_endpoint loads clock (fun _ => Ws.Sent) in
  let greeting (l : list handle) :=
    Ws.ConnectionEstablished (clock 0%nat) (S (length l)) in
  let answers datas :=
    imap (fun i data => Ws.reply_to loads data (clock (S i))) datas in
  (forall (w : handle) l datas,
      run w l (map Ws.Text datas)
      = (l ++ [w], greeting l :: answers datas, Ws.Waiting))
  /\ (forall (w : handle) l datas rest,
        run w l (map Ws.Text datas ++ Ws.RecvDisconnect :: rest)
        = (Ws.cleanup w (l ++ [w]), greeting l :: answers datas, Ws.Returned))
  /\ (forall data ts,
        loads data = None ->
        Ws.reply_to loads data ts = Ws.Error Ws.JSONDecodeError ts)
  /\ (forall data ts message,
        loads data = Some message ->
        (forall fields, message <> Ws.JObj fields) ->
        Ws.reply_to loads data ts = Ws.Error Ws.AttributeError ts)
  /\ (forall data ts fields,
        loads data = Some (Ws.JObj fields) ->
        Ws.reply_to loads data ts =
          match Ws.dict_get (lit "type") fields with
          | Some (Ws.JStr t) =>
              if decide (t = lit "ping") then Ws.Pong ts
              else if decide (t = lit "get_analytics")
              then Ws.AnalyticsUpdate ts
              else Ws.Echo (Ws.JObj fields) ts
          | _ => Ws.Echo (Ws.JObj fields) ts
          end).
Proof.
  intros run greeting answers.
  split; [|split; [|split; [|split]]].
  - intros w l datas. unfold run, Ws.websocket_endpoint.
    rewrite <- (app_nil_r (map Ws.Text datas)), message_loop_texts.
    cbn [Ws.message_loop]. rewrite length_app. cbn [length app].
    unfold greeting, answers. repeat f_equal; lia.
  - intros w l datas rest. unfold run, Ws.websocket_endpoint.
    rewrite message_loop_texts. cbn [Ws.message_loop].
    rewrite length_app. cbn [length app].
    unfold greeting, answers. repeat f_equal; lia.
  - intros data ts Hload. unfold Ws.reply_to, Ws.answer. now rewrite Hload.
  - intros data ts message Hload Hnot. unfold Ws.reply_to, Ws.answer.
    rewrite Hload. destruct message; try reflexivity.
    exfalso. now apply (Hnot fields).
  - intros data ts fields Hload. unfold Ws.reply_to, Ws.answer.
    rewrite Hload. cbn [Ws.get_type].
    destruct (Ws.dict_get (lit "type") fields) as [[]|]; try reflexivity.
    destruct (decide (s = lit "ping")); [reflexivity|].
    destruct (decide (s = lit "get_analytics")); reflexivity.
Qed.

(** A ping, a message of an unknown type and a text that is not JSON. *)
Lemma ws_handler_answers_every_text_witness :
  let ping := Ws.JObj [(lit "type", Ws.JStr (lit "ping"))] in
  let other := Ws.JObj [(lit "type", Ws.JStr (lit "subscribe"))] in
  let loads := fun data : str =>
    if decide (data = lit "p") then Some ping
    else if decide (data = lit "o") then Some other
    else None in
  loads (lit "x") = None
  /\ Ws.websocket_endpoint loads (fun k => Z.of_nat k) (fun _ => Ws.Sent)
       5%nat [4%nat] (map Ws.Text [lit "p"; lit "o"; lit "x"]
                      ++ [Ws.RecvDisconnect])
     = ([4%nat],
        [Ws.ConnectionEstablished 0 2; Ws.Pong 1; Ws.Echo other 2;
         Ws.Error Ws.JSONDecodeError 3],
        Ws.Returned).
Proof.
  intros ping other loads.
  split; [reflexivity|].
  pose proof (proj1 (proj2 (ws_handler_answers_every_text
                              (handle := nat) loads (fun k => Z.of_nat k)))
                5%nat [4%nat] [lit "p"; lit "o"; lit "x"] []) as Hrun.
  cbv zeta in Hrun. rewrite Hrun. reflexivity.
Defined.

(** X16. The [/ws] handler whatever the socket does: it never sends more
    than the greeting and one message for each outcome of
    [receive_text]; as long as it waits for a message the connection is
    registered; once it has left, the connection list is what it was
    before the connection (for a connection that was not in it), so that
    no other connection is touched; and it leaves with an exception only
    if a send failed otherwise than by a disconnection. *)
Theorem ws_handler_bounded_and_cleans_up {handle : Type}
    `{EqDecision handle} (loads : str -> option Ws.json) (clock : nat -> Z)
    (send_result : nat -> Ws.send_outcome) (w : handle) (l : list handle)
    (recvs : list Ws.recv_outcome) :
  exists l' outbox status,
    Ws.websocket_endpoint loads clock send_result w l recvs
    = (l', outbox, status)
    /\ (length outbox <= 1 + length recvs)%nat
    /\ (status = Ws.Waiting -> l' = l ++ [w])
    /\ (status <> Ws.Waiting -> ~ In w l -> l' = l)
    /\ (status = Ws.Raised -> exists j, send_result j = Ws.SendFailure).
Proof.
  unfold Ws.websocket_endpoint.
  destruct (send_result 0%nat) eqn:H0.
  - destruct (Ws.message_loop loads clock send_result recvs 1
                [Ws.ConnectionEstablished (clock 0%nat) (length (l ++ [w]))])
      as [outbox status] eqn:Hrun.
    destruct (message_loop_bounds loads clock send_result _ _ _ _ _ Hrun)
      as [Hlen Hraised].
    cbn [length] in Hlen.
    destruct status; eexists _, _, _; (split; [reflexivity|]);
      (split; [lia|]); repeat split; try discriminate; try congruence;
      try (intros _; now apply cleanup_after_append); try exact Hraised.
  - eexists _, _, _. split; [reflexivity|]. split; [simpl; lia|].
    repeat split; try discriminate.
    intros _. now apply cleanup_after_append.
  - eexists _, _, _. split; [reflexivity|]. split; [simpl; lia|].
    repeat split; try discriminate; eauto.
    intros _. now apply cleanup_after_append.
Qed.

(** A client that disconnects after one text, on a list of two other
    connections. *)
Lemma ws_handler_bounded_and_cleans_up_witness :
  let loads := fun _ : str => @None Ws.json in
  let recvs := [Ws.Text (lit "hello"); Ws.RecvDisconnect] in
  ~ In 5%nat [4%nat; 6%nat]
  /\ exists outbox status,
       Ws.websocket_endpoint loads (fun k => Z.of_nat k) (fun _ => Ws.Sent)
         5%nat [4%nat; 6%nat] recvs
       = ([4%nat; 6%nat], outbox, status)
       /\ status <> Ws.Waiting.
Proof.
  intros loads recvs.
  assert (Hnot : ~ In 5%nat [4%nat; 6%nat]) by (simpl; lia).
  split; [exact Hnot|].
  destruct (ws_handler_bounded_and_cleans_up loads (fun k => Z.of_nat k)
              (fun _ => Ws.Sent) 5%nat [4%nat; 6%nat] recvs)
    as (l' & outbox & status & Hrun & _ & _ & Hclean & _).
  exists outbox, status.
  assert (Hstatus : status <> Ws.Waiting).
  { vm_compute in Hrun. injection Hrun as _ _ <-. discriminate. }
  split; [|exact Hstatus].
  now rewrite Hrun, (Hclean Hstatus Hnot).
Defined.

(** ** More on the text transforms *)

Section MoreTransforms.

Implicit Types (s old new prompt : str).

Lemma filter_filter {A} (f : A -> bool) (l : list A) :
  List.filter f (List.filter f l) = List.filter f l.
Proof.
  apply filter_all. intros x Hx. now apply filter_In in Hx.
Qed.

End MoreTransforms.

(** X17. The filler-word removal of [api/optimize.py] and of
    [start-fastapi.py] is idempotent: a second pass removes nothing.  No
    token of its output is one it would remove. *)
Theorem filler_removal_idempotent (text : str) :
  Api.remove_fillers (Api.remove_fillers text) = Api.remove_fillers text
  /\ Forall (fun word => Api.keep_word word = true)
       (split (Api.remove_fillers text))
  /\ StartFastapi.remove_fillers (StartFastapi.remove_fillers text)
     = StartFastapi.remove_fillers text
  /\ Forall (fun word => StartFastapi.keep_word word = true)
       (split (StartFastapi.remove_fillers text)).
Proof.
  assert (Hkept : forall (keep : str -> bool) l,
             Forall (fun word => keep word = true) (List.filter keep l)).
  { intros keep l. apply Forall_forall. intros word Hw.
    now apply list_elem_of_In, filter_In in Hw. }
  split; [|split; [|split]].
  - unfold Api.remove_fillers at 1 3.
    now rewrite remove_fillers_tokens, filter_filter.
  - rewrite remove_fillers_tokens. apply Hkept.
  - unfold StartFastapi.remove_fillers.
    now rewrite split_join_filter, filter_filter.
  - unfold StartFastapi.remove_fillers. rewrite split_join_filter.
    apply Hkept.
Qed.

(** X18. The [/optimize] endpoint of [simple_app.py] answers 200 exactly
    when the prompt has at least one whitespace-separated token, and 500
    with [ZeroDivisionError] exactly when it has none; it gives no other
    answer. *)
Theorem simple_app_endpoint_answers (request : OptimizationRequest) :
  ((exists r, SimpleApp.optimize_prompt request = Http200 r)
   <-> split (prompt request) <> [])
  /\ (SimpleApp.optimize_prompt request = HTTPException 500 ZeroDivisionError
      <-> split (prompt request) = []).
Proof.
  unfold SimpleApp.optimize_prompt.
  destruct (split (prompt request)) as [|w ws] eqn:Hsplit.
  - assert (Hraise : SimpleApp.simple_optimize_prompt (prompt request)
                     = Raise ZeroDivisionError).
    { unfold SimpleApp.simple_optimize_prompt. rewrite Hsplit. reflexivity. }
    rewrite Hraise. split; split; try tauto; try reflexivity.
    intros [r Hr]. discriminate.
  - destruct (simple_optimize_prompt_ok (prompt request)) as (r & Hr & _).
    { rewrite Hsplit. discriminate. }
    rewrite Hr. split; split; try discriminate; eauto.
Qed.

(** A prompt of two words is answered 200. *)
Lemma simple_app_endpoint_answers_witness :
  let request :=
    {| prompt := lit "hello world"; context := lit "general"; budget := 0.05;
       quality_threshold := 0.95; optimization_strategy := lit "auto" |} in
  split (prompt request) <> []
  /\ exists r, SimpleApp.optimize_prompt request = Http200 r.
Proof.
  intros request.
  assert (Hne : split (prompt request) <> []) by (vm_compute; discriminate).
  split; [exact Hne|].
  exact (proj2 (proj1 (simple_app_endpoint_answers request)) Hne).
Defined.

(** X19. [_semantic_compression] returns lower-case text, whatever the
    prompt: the capitals of the prompt are lost.  It reads the prompt
    without regard to case: prompts that differ in letter case only get the
    same text. *)
Theorem semantic_compression_lower_case (prompt : str) :
  lower (App._semantic_compression prompt) = App._semantic_compression prompt
  /\ (forall other, lower other = lower prompt ->
        App._semantic_compression other = App._semantic_compression prompt).
Proof.
  split.
  - unfold App._semantic_compression. apply replace_all_lower.
    + vm_compute. reflexivity.
    + apply lower_idempotent.
  - intros other Hsame. unfold App._semantic_compression. now rewrite Hsame.
Qed.

(** Two spellings of one prompt. *)
Lemma semantic_compression_lower_case_witness :
  lower (lit "CREATE A React App") = lower (lit "create a react app")
  /\ App._semantic_compression (lit "CREATE A React App")
     = App._semantic_compression (lit "create a react app").
Proof.
  split; [reflexivity|].
  exact (proj2 (semantic_compression_lower_case (lit "create a react app"))
           (lit "CREATE A React App") eq_refl).
Defined.

(** X20. The texts returned by [_entropy_optimization] and
    [_context_aware_trimming] of [app.py], by [simple_optimize_prompt] and
    by [optimize_prompt] of [start-fastapi.py] are whitespace-normalised:
    their words are separated by single spaces, with no space at either
    end, so that splitting and joining them again gives the same text. *)
Theorem outputs_whitespace_normalised (prompt : str) :
  let normal text := join (lit " ") (split text) = text in
  normal (entropy_pruned prompt)
  /\ App._entropy_optimization prompt = Ok (entropy_pruned prompt)
  /\ normal (App._context_aware_trimming prompt)
  /\ normal (SimpleApp.optimize_text prompt)
  /\ normal (StartFastapi.optimize_text prompt).
Proof.
  intros normal. unfold normal.
  split; [unfold entropy_pruned; now rewrite split_join_filter|].
  split; [apply entropy_optimization_filter|].
  split; [unfold App._context_aware_trimming; now rewrite split_join_split|].
  split; [unfold SimpleApp.optimize_text; now rewrite split_join_split|].
  unfold StartFastapi.optimize_text. now rewrite split_join_split.
Qed.

(** X10. Around a failed send, [ConnectionManager.broadcast] of [app.py]
    removes the failing connection and passes over the one that follows it
    in the list: that connection stays registered, whether its own send
    would succeed or not, and is not sent the message, while every other
    connection is. *)
Theorem app_broadcast_skips_after_failure {handle : Type}
    `{EqDecision handle} (fails : handle -> bool) (m : App.message)
    (p q : list handle) (k n : handle) :
  Forall (fun c => fails c = false) p ->
  fails k = true ->
  Forall (fun c => fails c = false) q ->
  ~ In n (p ++ q) ->
  exists l' sent,
    App.broadcast fails m (p ++ k :: n :: q) = Some (l', sent)
    /\ l' = p ++ n :: q
    /\ In n l'
    /\ ~ In (n, m) sent
    /\ (forall c, In c (p ++ q) -> In (c, m) sent).
Proof.
  intros Hp Hk Hq Hn.
  exists (p ++ n :: q), (map (fun c => (c, m)) (p ++ q)).
  split; [now apply broadcast_passes_over_next|].
  split; [reflexivity|].
  split; [apply in_or_app; right; now left|].
  split.
  - intros Hin. apply in_map_iff in Hin as (c & Heq & Hc).
    injection Heq as ->. contradiction.
  - intros c Hc. apply in_map_iff. now exists c.
Qed.

(** Subscriber 7 fails between 3 and 8, 9: it is removed, and 8 is passed
    over. *)
Lemma app_broadcast_skips_after_failure_witness :
  let m := App.OptimizationCompleted Runs.sample_result in
  let fails := fun c : nat => bool_decide (c = 7%nat) in
  ~ In 8%nat ([3%nat] ++ [9%nat])
  /\ exists l' sent,
       App.broadcast fails m ([3%nat] ++ 7%nat :: 8%nat :: [9%nat])
       = Some (l', sent)
       /\ l' = [3%nat] ++ 8%nat :: [9%nat]
       /\ ~ In (8%nat, m) sent.
Proof.
  intros m fails.
  assert (Hn : ~ In 8%nat ([3%nat] ++ [9%nat])) by (simpl; lia).
  split; [exact Hn|].
  destruct (app_broadcast_skips_after_failure fails m [3%nat] [9%nat]
              7%nat 8%nat ltac:(repeat constructor) eq_refl
              ltac:(repeat constructor) Hn)
    as (l' & sent & Hrun & Hl & _ & Hnot & _).
  exists l', sent. repeat split; assumption.
Defined.
